(** * Completion callbacks of the PPAPI C++ wrappers

    A shallow embedding of [trunk/cpp/completion_callback.h]: the classes
    [CompletionCallback], [CompletionCallbackFactory<T>] and its two private
    classes [BackPointer] and [CallbackImpl], over an explicit store of
    heap objects, followed by the properties of single delivery,
    cancellation and reference counting. *)

From stdpp Require Import gmap list fin_maps.
From Stdlib Require Import ZArith Lia.

Local Open Scope Z_scope.

(** * The embedding *)

(** ** Data model *)

(** Addresses of objects.  A C++ pointer is an [option addr]: [None] is
    [NULL]. *)
Abbreviation addr := positive (only parsing).

(** [int32_t]: results are passed through unexamined; the reference count
    is incremented and decremented, and signed overflow is undefined. *)
Abbreviation int32_t := Z (only parsing).

Definition INT32_MAX : Z := 2147483647.
Definition INT32_MIN : Z := -2147483648.

(** [typedef void (T::*Method)(int32_t)]: a member function of [T] is named
    by its index in the class. *)
Abbreviation Method := nat (only parsing).

(** [class BackPointer]: [int32_t ref_; CompletionCallbackFactory<T>* factory_]. *)
Record BackPointer : Type := mkBackPointer {
  ref_ : int32_t;
  factory_ : option addr
}.

(** [typedef void ( *ThunkType)(void* user_data, int32_t result)]: the only
    function whose address is ever stored in [thunk_] is
    [CallbackImpl::Thunk]. *)
Inductive ThunkType : Type :=
| CallbackImpl_Thunk.

(** [class CallbackImpl : public CompletionCallback]: the base class field
    [thunk_] and the two fields [back_pointer_] and [method_]. *)
Record CallbackImpl : Type := mkCallbackImpl {
  thunk_ : ThunkType;
  cb_back_pointer_ : addr;
  method_ : Method
}.

(** [class CompletionCallbackFactory<T>]: [T* object_] and
    [BackPointer* back_pointer_].  [back_pointer_] is [None] only between
    the member initialisers and [InitBackPointer] of the constructor. *)
Record Factory : Type := mkFactory {
  object_ : option addr;
  back_pointer_ : option addr
}.

(** One call [(object->*method)(result)] of a bound member function. *)
Record Call : Type := mkCall {
  call_object : addr;
  call_method : Method;
  call_result : int32_t
}.

(** The store: the [BackPointer]s and [CallbackImpl]s allocated with [new],
    the factories that are alive (each at the address of its storage inside
    its owner), and the calls delivered to bound methods so far, oldest
    first. *)
Record World : Type := mkWorld {
  back_pointers : gmap positive BackPointer;
  callbacks : gmap positive CallbackImpl;
  factories : gmap positive Factory;
  delivered : list Call
}.

Definition empty_world : World :=
  {| back_pointers := ∅; callbacks := ∅; factories := ∅; delivered := [] |}.

Global Instance BackPointer_eq_dec : EqDecision BackPointer.
Proof. solve_decision. Defined.
Global Instance ThunkType_eq_dec : EqDecision ThunkType.
Proof. solve_decision. Defined.
Global Instance CallbackImpl_eq_dec : EqDecision CallbackImpl.
Proof. solve_decision. Defined.
Global Instance Factory_eq_dec : EqDecision Factory.
Proof. solve_decision. Defined.
Global Instance Call_eq_dec : EqDecision Call.
Proof. solve_decision. Defined.

Definition with_back_pointers (h : gmap positive BackPointer) (w : World) : World :=
  {| back_pointers := h; callbacks := callbacks w;
     factories := factories w; delivered := delivered w |}.

Definition with_callbacks (h : gmap positive CallbackImpl) (w : World) : World :=
  {| back_pointers := back_pointers w; callbacks := h;
     factories := factories w; delivered := delivered w |}.

Definition with_factories (h : gmap positive Factory) (w : World) : World :=
  {| back_pointers := back_pointers w; callbacks := callbacks w;
     factories := h; delivered := delivered w |}.

Definition with_delivered (l : list Call) (w : World) : World :=
  {| back_pointers := back_pointers w; callbacks := callbacks w;
     factories := factories w; delivered := l |}.

(** ** The monad of the embedding

    A member function is a state transformer on the store that returns a
    value, stops at a failed [PP_DCHECK], or has undefined behaviour (a
    dangling or null pointer dereferenced, a signed counter overflowing). *)
Inductive outcome (A : Type) : Type :=
| Ok (a : A) (w : World)
| Fatal
| Undefined.
Arguments Ok {A} a w.
Arguments Fatal {A}.
Arguments Undefined {A}.

Definition M (A : Type) : Type := World → outcome A.

Definition ret {A} (a : A) : M A := λ w, Ok a w.

Definition bind {A B} (m : M A) (k : A → M B) : M B :=
  λ w, match m w with
       | Ok a w' => k a w'
       | Fatal => Fatal
       | Undefined => Undefined
       end.

Definition undefined {A} : M A := λ _, Undefined.
Definition fatal {A} : M A := λ _, Fatal.

Declare Scope cc_scope.
Delimit Scope cc_scope with cc.
Notation "x <- m ;; k" := (bind m (λ x, k))
  (at level 90, m at level 80, right associativity) : cc_scope.
Notation "m ;;; k" := (bind m (λ _, k))
  (at level 90, right associativity) : cc_scope.
Local Open Scope cc_scope.

(** *** Access to the store *)

Definition load_back_pointer (p : addr) : M BackPointer :=
  λ w, match back_pointers w !! p with
       | Some bp => Ok bp w
       | None => Undefined
       end.

Definition store_back_pointer (p : addr) (bp : BackPointer) : M unit :=
  λ w, Ok tt (with_back_pointers (<[p := bp]> (back_pointers w)) w).

(** [new BackPointer]: storage at an address that holds no [BackPointer]. *)
Definition new_back_pointer (bp : BackPointer) : M addr :=
  λ w, let p := fresh (dom (back_pointers w)) in
       Ok p (with_back_pointers (<[p := bp]> (back_pointers w)) w).

Definition free_back_pointer (p : addr) : M unit :=
  λ w, Ok tt (with_back_pointers (delete p (back_pointers w)) w).

Definition load_callback (c : addr) : M CallbackImpl :=
  λ w, match callbacks w !! c with
       | Some cb => Ok cb w
       | None => Undefined
       end.

Definition new_callback (cb : CallbackImpl) : M addr :=
  λ w, let c := fresh (dom (callbacks w)) in
       Ok c (with_callbacks (<[c := cb]> (callbacks w)) w).

Definition free_callback (c : addr) : M unit :=
  λ w, Ok tt (with_callbacks (delete c (callbacks w)) w).

Definition load_factory (f : addr) : M Factory :=
  λ w, match factories w !! f with
       | Some fac => Ok fac w
       | None => Undefined
       end.

Definition store_factory (f : addr) (fac : Factory) : M unit :=
  λ w, Ok tt (with_factories (<[f := fac]> (factories w)) w).

Definition free_factory (f : addr) : M unit :=
  λ w, Ok tt (with_factories (delete f (factories w)) w).

(** [(object->*method)(result)]: the body of the bound method belongs to the
    owner; the embedding records that the call took place. *)
Definition call_bound_method (object : addr) (method : Method) (result : int32_t)
  : M unit :=
  λ w, Ok tt (with_delivered (delivered w ++ [mkCall object method result]) w).

(** Modelled from the spec: [PP_DCHECK] of the absent [ppapi/cpp/logging.h],
    as the assertion of a debug build: a false condition is fatal. *)
Definition PP_DCHECK (cond : bool) : M unit :=
  if cond then ret tt else fatal.

(** ** [CompletionCallbackFactory<T>::BackPointer] *)

(** [BackPointer() : ref_(0), factory_(NULL)], the only constructor of the
    class.  [InitBackPointer] writes [new BackPointer(this)]: the class has
    no constructor that receives the factory, and no member function
    assigns a non-null [factory_]. *)
Definition BackPointer_ctor : BackPointer :=
  {| ref_ := 0; factory_ := None |}.

(** [void AddRef() { ref_++; }] *)
Definition AddRef (this : addr) : M unit :=
  bp <- load_back_pointer this ;;
  if decide (ref_ bp = INT32_MAX) then undefined
  else store_back_pointer this {| ref_ := ref_ bp + 1; factory_ := factory_ bp |}.

(** [void Release() { if (--ref_ == 0) delete this; }] *)
Definition Release (this : addr) : M unit :=
  bp <- load_back_pointer this ;;
  if decide (ref_ bp = INT32_MIN) then undefined
  else
    store_back_pointer this {| ref_ := ref_ bp - 1; factory_ := factory_ bp |} ;;;
    if decide (ref_ bp - 1 = 0) then free_back_pointer this else ret tt.

(** [void DropFactory() { factory_ = NULL; }] *)
Definition DropFactory (this : addr) : M unit :=
  bp <- load_back_pointer this ;;
  store_back_pointer this {| ref_ := ref_ bp; factory_ := None |}.

(** [T* CompletionCallbackFactory::GetObject() { return object_; }] *)
Definition GetObject (this : addr) : M (option addr) :=
  fac <- load_factory this ;;
  ret (object_ fac).

(** [T* BackPointer::GetObject() { return factory_ ? factory_->GetObject() : NULL; }] *)
Definition BackPointer_GetObject (this : addr) : M (option addr) :=
  bp <- load_back_pointer this ;;
  match factory_ bp with
  | Some f => GetObject f
  | None => ret None
  end.

(** ** [CompletionCallbackFactory<T>] *)

(** The value of the member [back_pointer_] of the factory at [this]. *)
Definition read_back_pointer_ (this : addr) : M addr :=
  fac <- load_factory this ;;
  match back_pointer_ fac with
  | Some p => ret p
  | None => undefined
  end.

(** [void InitBackPointer() { back_pointer_ = new BackPointer(this);
    back_pointer_->AddRef(); }] *)
Definition InitBackPointer (this : addr) : M unit :=
  p <- new_back_pointer BackPointer_ctor ;;
  fac <- load_factory this ;;
  store_factory this {| object_ := object_ fac; back_pointer_ := Some p |} ;;;
  p' <- read_back_pointer_ this ;;
  AddRef p'.

(** [void ResetBackPointer() { back_pointer_->DropFactory();
    back_pointer_->Release(); }] *)
Definition ResetBackPointer (this : addr) : M unit :=
  p <- read_back_pointer_ this ;;
  DropFactory p ;;;
  p' <- read_back_pointer_ this ;;
  Release p'.

(** [explicit CompletionCallbackFactory(T* object = NULL) : object_(object)
    { PP_DCHECK(object_); InitBackPointer(); }] *)
Definition CompletionCallbackFactory_ctor (this : addr) (object : option addr)
  : M unit :=
  store_factory this {| object_ := object; back_pointer_ := None |} ;;;
  fac <- load_factory this ;;
  PP_DCHECK (bool_decide (is_Some (object_ fac))) ;;;
  InitBackPointer this.

(** [~CompletionCallbackFactory() { ResetBackPointer(); }], after which the
    storage of the factory is gone. *)
Definition CompletionCallbackFactory_dtor (this : addr) : M unit :=
  ResetBackPointer this ;;;
  free_factory this.

(** [void CancelAll() { ResetBackPointer(); InitBackPointer(); }] *)
Definition CancelAll (this : addr) : M unit :=
  ResetBackPointer this ;;;
  InitBackPointer this.

(** [CallbackImpl(BackPointer* back_pointer, Method method)
      : CompletionCallback(&CallbackImpl::Thunk),
        back_pointer_(back_pointer), method_(method)
    { back_pointer_->AddRef(); }], run on storage obtained with [new]. *)
Definition new_CallbackImpl (back_pointer : addr) (method : Method) : M addr :=
  self <- new_callback {| thunk_ := CallbackImpl_Thunk;
                          cb_back_pointer_ := back_pointer;
                          method_ := method |} ;;
  cb <- load_callback self ;;
  AddRef (cb_back_pointer_ cb) ;;;
  ret self.

(** [CompletionCallback* NewCallback(Method method)
    { return new CallbackImpl(back_pointer_, method); }] *)
Definition NewCallback (this : addr) (method : Method) : M addr :=
  p <- read_back_pointer_ this ;;
  new_CallbackImpl p method.

(** [~CallbackImpl() { back_pointer_->Release(); }] *)
Definition CallbackImpl_dtor (self : addr) : M unit :=
  cb <- load_callback self ;;
  Release (cb_back_pointer_ cb).

(** [delete self]: the destructor, then the storage is returned. *)
Definition delete_CallbackImpl (self : addr) : M unit :=
  CallbackImpl_dtor self ;;;
  free_callback self.

(** [static void Thunk(void* user_data, int32_t result) {
      CallbackImpl* self = static_cast<CallbackImpl*>(user_data);
      T* object = self->back_pointer_->GetObject();
      if (object) (object->*(self->method_))(result);
      delete self; }] *)
Definition Thunk (user_data : option addr) (result : int32_t) : M unit :=
  match user_data with
  | None => undefined
  | Some self =>
      cb <- load_callback self ;;
      object <- BackPointer_GetObject (cb_back_pointer_ cb) ;;
      match object with
      | Some o =>
          cb' <- load_callback self ;;
          call_bound_method o (method_ cb') result
      | None => ret tt
      end ;;;
      delete_CallbackImpl self
  end.

(** A call through a stored function pointer. *)
Definition call_thunk (t : ThunkType) : option addr → int32_t → M unit :=
  match t with
  | CallbackImpl_Thunk => Thunk
  end.

(** ** [CompletionCallback] *)

(** [void Run(int32_t result) { thunk_(this, result); }] *)
Definition Run (this : addr) (result : int32_t) : M unit :=
  cb <- load_callback this ;;
  call_thunk (thunk_ cb) (Some this) result.

(** *** Conversion to [PP_CompletionCallback] *)

(** Modelled from the spec: the primitive handle form of the absent
    [ppapi/c/pp_completion_callback.h], a pair of a dispatch function and an
    opaque context pointer, in the order of the initialiser in [ToPP]. *)
Record PP_CompletionCallback : Type := mkPP {
  func : option ThunkType;
  user_data : option addr
}.

(** Modelled from the spec: the operation starter invokes the pair with a
    result code, [func(user_data, result)]. *)
Definition PP_RunCompletionCallback (cc : PP_CompletionCallback)
    (result : int32_t) : M unit :=
  match func cc with
  | Some t => call_thunk t (user_data cc) result
  | None => undefined
  end.

Section ToPP.
(** The value of [PP_BlockUntilComplete()], declared in the absent
    [ppapi/c/pp_completion_callback.h]: the reserved pair that asks the
    operation starter to block until the operation is complete. *)
Variable PP_BlockUntilComplete : PP_CompletionCallback.

(** [static PP_CompletionCallback ToPP(CompletionCallback* cc) {
      if (!cc) return PP_BlockUntilComplete();
      PP_CompletionCallback result = { cc->thunk_, cc };
      return result; }] *)
Definition ToPP (cc : option addr) : M PP_CompletionCallback :=
  match cc with
  | None => ret PP_BlockUntilComplete
  | Some c =>
      cb <- load_callback c ;;
      ret {| func := Some (thunk_ cb); user_data := Some c |}
  end.
End ToPP.

(** ** Programs over the interface

    What the owner of a factory and the holder of a callback can do.  The
    storage of a factory is only constructed where no factory is alive. *)
Inductive op : Type :=
| Construct (f : addr) (object : option addr)
| Destroy (f : addr)
| Cancel (f : addr)
| Mint (f : addr) (method : Method)
| Invoke (c : addr) (result : int32_t).

Definition step (o : op) : M unit :=
  match o with
  | Construct f object =>
      λ w, match factories w !! f with
           | None => CompletionCallbackFactory_ctor f object w
           | Some _ => Undefined
           end
  | Destroy f => CompletionCallbackFactory_dtor f
  | Cancel f => CancelAll f
  | Mint f method => c <- NewCallback f method ;; ret tt
  | Invoke c result => Run c result
  end.

Fixpoint exec (ops : list op) : M unit :=
  match ops with
  | [] => ret tt
  | o :: ops' => step o ;;; exec ops'
  end.

(** ** Holders of a [BackPointer] *)

Definition points_to (p : addr) (kv : positive * Factory) : Prop :=
  back_pointer_ kv.2 = Some p.

Definition bound_to (p : addr) (kv : positive * CallbackImpl) : Prop :=
  cb_back_pointer_ kv.2 = p.

Global Instance points_to_dec p kv : Decision (points_to p kv).
Proof. unfold points_to. apply _. Defined.
Global Instance bound_to_dec p kv : Decision (bound_to p kv).
Proof. unfold bound_to. apply _. Defined.

(** The factories whose [back_pointer_] is [p]. *)
Definition factory_refs (m : gmap positive Factory) (p : addr) : nat :=
  size (filter (points_to p) m).

(** The callbacks not yet run whose [back_pointer_] is [p]. *)
Definition callback_refs (m : gmap positive CallbackImpl) (p : addr) : nat :=
  size (filter (bound_to p) m).

Definition holders (w : World) (p : addr) : Z :=
  Z.of_nat (factory_refs (factories w) p + callback_refs (callbacks w) p).

(** ** The invariant of the store between two calls of the interface *)

(** A callback refers to an allocated [BackPointer]. *)
Definition callback_ok (w : World) (cb : CallbackImpl) : Prop :=
  is_Some (back_pointers w !! cb_back_pointer_ cb).

(** A factory refers to an allocated [BackPointer]. *)
Definition factory_ok (w : World) (fac : Factory) : Prop :=
  match back_pointer_ fac with
  | Some p => is_Some (back_pointers w !! p)
  | None => False
  end.

(** [ref_] counts the holders, and there is one at least. *)
Definition count_ok (w : World) (p : addr) (bp : BackPointer) : Prop :=
  ref_ bp = holders w p ∧ 0 < ref_ bp.

(** A [BackPointer] that names a factory names a live one that refers to it. *)
Definition bound_ok (w : World) (p : addr) (bp : BackPointer) : Prop :=
  match factory_ bp with
  | Some f =>
      match factories w !! f with
      | Some fac => back_pointer_ fac = Some p
      | None => False
      end
  | None => True
  end.

(** At most one factory refers to a [BackPointer]. *)
Definition owner_ok (w : World) (p : addr) : Prop :=
  (factory_refs (factories w) p ≤ 1)%nat.

Global Instance callback_ok_dec w cb : Decision (callback_ok w cb).
Proof. unfold callback_ok. apply _. Defined.
Global Instance factory_ok_dec w fac : Decision (factory_ok w fac).
Proof. unfold factory_ok. destruct (back_pointer_ fac); apply _. Defined.
Global Instance count_ok_dec w p bp : Decision (count_ok w p bp).
Proof. unfold count_ok. apply _. Defined.
Global Instance bound_ok_dec w p bp : Decision (bound_ok w p bp).
Proof.
  unfold bound_ok. destruct (factory_ bp) as [f|]; [|apply _].
  destruct (factories w !! f); apply _.
Defined.
Global Instance owner_ok_dec w p : Decision (owner_ok w p).
Proof. unfold owner_ok. apply _. Defined.

Definition wf (w : World) : Prop :=
  map_Forall (λ _ cb, callback_ok w cb) (callbacks w)
  ∧ map_Forall (λ _ fac, factory_ok w fac) (factories w)
  ∧ map_Forall (λ p bp, count_ok w p bp ∧ bound_ok w p bp ∧ owner_ok w p)
               (back_pointers w).

Global Instance wf_dec w : Decision (wf w).
Proof. unfold wf. apply _. Defined.

(** The contribution of the entry at [i] to the number of entries that
    satisfy [P]. *)
Definition hit {A : Type} (P : positive * A → Prop) `{!∀ kv, Decision (P kv)}
    (i : positive) (o : option A) : nat :=
  match o with
  | Some x => if decide (P (i, x)) then 1%nat else 0%nat
  | None => 0%nat
  end.

(** ** The store after each member function

    The member functions are unfolded by name in the proofs. *)

Global Arguments AddRef : simpl never.
Global Arguments Release : simpl never.
Global Arguments DropFactory : simpl never.
Global Arguments GetObject : simpl never.
Global Arguments BackPointer_GetObject : simpl never.
Global Arguments read_back_pointer_ : simpl never.
Global Arguments InitBackPointer : simpl never.
Global Arguments ResetBackPointer : simpl never.
Global Arguments CompletionCallbackFactory_ctor : simpl never.
Global Arguments CompletionCallbackFactory_dtor : simpl never.
Global Arguments CancelAll : simpl never.
Global Arguments new_CallbackImpl : simpl never.
Global Arguments NewCallback : simpl never.
Global Arguments delete_CallbackImpl : simpl never.
Global Arguments Thunk : simpl never.
Global Arguments Run : simpl never.

(** The [BackPointer]s after [p->Release()], where [bp] is the value of
    [*p] before the call. *)
Definition released (p : addr) (bp : BackPointer)
    (h : gmap positive BackPointer) : gmap positive BackPointer :=
  if decide (ref_ bp - 1 = 0) then delete p h
  else <[p := {| ref_ := ref_ bp - 1; factory_ := factory_ bp |}]> h.

(** The object a [BackPointer] resolves to. *)
Definition resolve (w : World) (bp : BackPointer) : option addr :=
  match factory_ bp with
  | Some f =>
      match factories w !! f with
      | Some fac => object_ fac
      | None => None
      end
  | None => None
  end.

(** The calls delivered by running a callback bound to [method] whose
    [BackPointer] is [bp]. *)
Definition delivery (w : World) (bp : BackPointer) (method : Method)
    (result : int32_t) : list Call :=
  match resolve w bp with
  | Some o => [mkCall o method result]
  | None => []
  end.

(** One holder if [P], none otherwise. *)
Definition one_if (P : Prop) `{!Decision P} : nat :=
  if decide P then 1%nat else 0%nat.

(** The store after the storage at [f] is bound to a fresh token, after the
    factory at [f] has let go of its token [p] and ended, after a callback
    is minted under [p], and after the callback at [c] is run. *)
Definition after_attach (f : addr) (object : option addr) (w : World) : World :=
  let p := fresh (dom (back_pointers w)) in
  {| back_pointers := <[p := {| ref_ := 1; factory_ := None |}]> (back_pointers w);
     callbacks := callbacks w;
     factories := <[f := {| object_ := object; back_pointer_ := Some p |}]> (factories w);
     delivered := delivered w |}.

Definition after_detach (f p : addr) (bp : BackPointer) (w : World) : World :=
  {| back_pointers :=
       released p {| ref_ := ref_ bp; factory_ := None |} (back_pointers w);
     callbacks := callbacks w;
     factories := delete f (factories w);
     delivered := delivered w |}.

Definition after_mint (p : addr) (bp : BackPointer) (method : Method) (w : World)
  : World :=
  {| back_pointers :=
       <[p := {| ref_ := ref_ bp + 1; factory_ := factory_ bp |}]> (back_pointers w);
     callbacks :=
       <[fresh (dom (callbacks w)) :=
           {| thunk_ := CallbackImpl_Thunk; cb_back_pointer_ := p;
              method_ := method |}]> (callbacks w);
     factories := factories w;
     delivered := delivered w |}.

Definition after_run (c : addr) (cb : CallbackImpl) (bp : BackPointer)
    (result : int32_t) (w : World) : World :=
  {| back_pointers := released (cb_back_pointer_ cb) bp (back_pointers w);
     callbacks := delete c (callbacks w);
     factories := factories w;
     delivered := delivered w ++ delivery w bp (method_ cb) result |}.

(** A step of a program as a relation between stores. *)
Inductive stepped (w : World) : op → World → Prop :=
| stepped_construct f o :
    factories w !! f = None →
    stepped w (Construct f (Some o)) (after_attach f (Some o) w)
| stepped_destroy f fac p bp :
    factories w !! f = Some fac → back_pointer_ fac = Some p →
    back_pointers w !! p = Some bp →
    stepped w (Destroy f) (after_detach f p bp w)
| stepped_cancel f fac p bp :
    factories w !! f = Some fac → back_pointer_ fac = Some p →
    back_pointers w !! p = Some bp →
    stepped w (Cancel f) (after_attach f (object_ fac) (after_detach f p bp w))
| stepped_mint f fac p bp method :
    factories w !! f = Some fac → back_pointer_ fac = Some p →
    back_pointers w !! p = Some bp → ref_ bp ≠ INT32_MAX →
    stepped w (Mint f method) (after_mint p bp method w)
| stepped_invoke c cb bp result :
    callbacks w !! c = Some cb →
    back_pointers w !! cb_back_pointer_ cb = Some bp →
    stepped w (Invoke c result) (after_run c cb bp result w).

(** ** Callbacks and their tokens along a program *)

(** [o] is a run of the callback at [c]. *)
Definition invokes (c : addr) (o : op) : bool :=
  match o with
  | Invoke c' _ => bool_decide (c' = c)
  | _ => false
  end.

(** No step of [ops] runs the callback at [c]. *)
Definition never_invokes (c : addr) (ops : list op) : bool :=
  forallb (λ o, negb (invokes c o)) ops.

(** No [BackPointer] of the store names a factory. *)
Definition unbound (w : World) : Prop :=
  ∀ p bp, back_pointers w !! p = Some bp → factory_ bp = None.

Global Instance op_eq_dec : EqDecision op.
Proof. solve_decision. Defined.

(** The callback at [c] is not run yet, and its token either names no
    factory or is the current token of the live factory at [f]. *)
Definition pending (f : addr) (w : World) (c : addr) (cb : CallbackImpl) : Prop :=
  callbacks w !! c = Some cb
  ∧ ∃ bp, back_pointers w !! cb_back_pointer_ cb = Some bp
          ∧ (factory_ bp = None
             ∨ ∃ fac, factories w !! f = Some fac
                      ∧ back_pointer_ fac = Some (cb_back_pointer_ cb)).

(** The callback at [c] is not run yet, and its token names no factory. *)
Definition cancelled (w : World) (c : addr) (cb : CallbackImpl) : Prop :=
  callbacks w !! c = Some cb
  ∧ ∃ bp, back_pointers w !! cb_back_pointer_ cb = Some bp ∧ factory_ bp = None.

(** ** Stores of the examples *)

(** The store reached from the empty store by a program. *)
Definition world_after (ops : list op) : World :=
  match exec ops empty_world with
  | Ok _ w => w
  | _ => empty_world
  end.

(** A well-formed store whose token names the live factory at [5], with a
    callback under it.  No program reaches it, since no token is ever given
    a factory; it exercises the branch of [Thunk] that calls the method. *)
Definition bound_world : World :=
  {| back_pointers := {[ 1%positive := {| ref_ := 2; factory_ := Some 5%positive |} ]};
     callbacks := {[ 1%positive := {| thunk_ := CallbackImpl_Thunk;
                                      cb_back_pointer_ := 1; method_ := 3 |} ]};
     factories := {[ 5%positive := {| object_ := Some 9%positive;
                                      back_pointer_ := Some 1%positive |} ]};
     delivered := [] |}.

(** [CancelAll] called [n] times in a row. *)
Fixpoint CancelAll_times (n : nat) (f : addr) : M unit :=
  match n with
  | O => ret tt
  | S n' => CancelAll f ;;; CancelAll_times n' f
  end.

(** [o] ends the factory at [f]. *)
Definition destroys (f : addr) (o : op) : bool :=
  match o with
  | Destroy f' => bool_decide (f' = f)
  | _ => false
  end.

(** No step of [ops] ends the factory at [f]. *)
Definition never_destroys (f : addr) (ops : list op) : bool :=
  forallb (λ o, negb (destroys f o)) ops.

(** Every factory of the store has an owner. *)
Definition owned (w : World) : Prop :=
  ∀ f fac, factories w !! f = Some fac → is_Some (object_ fac).

(** Every [ref_] of the store is at most [INT32_MAX]. *)
Definition bounded (w : World) : Prop :=
  ∀ p bp, back_pointers w !! p = Some bp → ref_ bp ≤ INT32_MAX.

(** * Proofs *)

(** ** Counting the entries of a map that satisfy a predicate *)

Section count.
Context {A : Type} (P : positive * A → Prop) `{!∀ kv, Decision (P kv)}.

Lemma count_delete (m : gmap positive A) i :
  (size (filter P (delete i m)) + hit P i (m !! i) = size (filter P m))%nat.
Proof.
  rewrite map_filter_delete. unfold hit.
  destruct (m !! i) as [x|] eqn:Hi.
  - destruct (decide (P (i, x))) as [HP|HP].
    + assert (filter P m !! i = Some x) as Hf
        by (apply map_lookup_filter_Some; done).
      rewrite map_size_delete, Hf.
      assert (size (filter P m) ≠ 0%nat); [|lia].
      intros H0. apply map_size_empty_inv in H0. rewrite H0 in Hf. done.
    + rewrite delete_id; [lia|].
      apply map_lookup_filter_None. right. intros y Hy. congruence.
  - rewrite delete_id; [lia|].
    apply map_lookup_filter_None. by left.
Qed.

Lemma count_insert (m : gmap positive A) i x :
  size (filter P (<[i := x]> m))
  = (size (filter P (delete i m)) + hit P i (Some x))%nat.
Proof.
  rewrite map_filter_insert. unfold hit.
  destruct (decide (P (i, x))) as [HP|HP]; [|lia].
  rewrite <- insert_delete_eq, <- map_filter_delete.
  rewrite map_size_insert_None; [lia|].
  apply map_lookup_filter_None. left. apply lookup_delete_eq.
Qed.

Lemma count_pos (m : gmap positive A) i x :
  m !! i = Some x → P (i, x) → (0 < size (filter P m))%nat.
Proof.
  intros Hi HP. rewrite <- (count_delete m i), Hi. unfold hit.
  rewrite decide_True by done. lia.
Qed.

Lemma count_zero (m : gmap positive A) :
  (∀ i x, m !! i = Some x → ¬ P (i, x)) → size (filter P m) = 0%nat.
Proof.
  intros Hno. apply map_size_empty_iff, map_empty_filter.
  intros i x Hi. by apply Hno.
Qed.
End count.

(** ** The effect of each member function on the store *)

Lemma AddRef_eq w p bp :
  back_pointers w !! p = Some bp → ref_ bp ≠ INT32_MAX →
  AddRef p w
  = Ok tt (with_back_pointers
             (<[p := {| ref_ := ref_ bp + 1; factory_ := factory_ bp |}]>
                (back_pointers w)) w).
Proof.
  intros Hp Hmax. unfold AddRef, bind, load_back_pointer. rewrite Hp.
  by rewrite decide_False.
Qed.

Lemma Release_eq w p bp :
  back_pointers w !! p = Some bp → ref_ bp ≠ INT32_MIN →
  Release p w = Ok tt (with_back_pointers (released p bp (back_pointers w)) w).
Proof.
  intros Hp Hmin. unfold Release, released, bind, load_back_pointer.
  rewrite Hp, decide_False by done. cbn.
  destruct (decide (ref_ bp - 1 = 0)); [|done].
  unfold free_back_pointer, with_back_pointers; cbn.
  by rewrite delete_insert_eq.
Qed.

Lemma DropFactory_eq w p bp :
  back_pointers w !! p = Some bp →
  DropFactory p w
  = Ok tt (with_back_pointers
             (<[p := {| ref_ := ref_ bp; factory_ := None |}]> (back_pointers w)) w).
Proof.
  intros Hp. unfold DropFactory, bind, load_back_pointer. by rewrite Hp.
Qed.

Lemma ResetBackPointer_eq w f fac p bp :
  factories w !! f = Some fac → back_pointer_ fac = Some p →
  back_pointers w !! p = Some bp → ref_ bp ≠ INT32_MIN →
  ResetBackPointer f w
  = Ok tt (with_back_pointers
             (released p {| ref_ := ref_ bp; factory_ := None |} (back_pointers w)) w).
Proof.
  intros Hf Hfp Hp Hmin.
  unfold ResetBackPointer, read_back_pointer_, bind at 1 2, load_factory.
  rewrite Hf, Hfp. cbn. unfold bind at 1. rewrite (DropFactory_eq _ _ _ Hp).
  unfold bind, load_factory. cbn. rewrite Hf, Hfp. cbn.
  erewrite Release_eq; [|cbn; apply lookup_insert_eq|done].
  f_equal. unfold with_back_pointers, released; cbn. f_equal.
  case_decide; [by rewrite delete_insert_eq|by rewrite insert_insert_eq].
Qed.

Lemma InitBackPointer_eq w f fac :
  factories w !! f = Some fac →
  InitBackPointer f w
  = let p := fresh (dom (back_pointers w)) in
    Ok tt {| back_pointers := <[p := {| ref_ := 1; factory_ := None |}]> (back_pointers w);
             callbacks := callbacks w;
             factories := <[f := {| object_ := object_ fac; back_pointer_ := Some p |}]>
                            (factories w);
             delivered := delivered w |}.
Proof.
  intros Hf. unfold InitBackPointer, new_back_pointer, read_back_pointer_.
  unfold bind, load_factory, store_factory; cbn. rewrite Hf; cbn.
  rewrite lookup_insert_eq; cbn.
  erewrite AddRef_eq; [|cbn; apply lookup_insert_eq|done].
  cbn. unfold with_back_pointers; cbn. by rewrite insert_insert_eq.
Qed.

Lemma ctor_eq w f o :
  CompletionCallbackFactory_ctor f (Some o) w
  = let p := fresh (dom (back_pointers w)) in
    Ok tt {| back_pointers := <[p := {| ref_ := 1; factory_ := None |}]> (back_pointers w);
             callbacks := callbacks w;
             factories := <[f := {| object_ := Some o; back_pointer_ := Some p |}]>
                            (factories w);
             delivered := delivered w |}.
Proof.
  unfold CompletionCallbackFactory_ctor, bind at 1, store_factory.
  unfold bind at 1, load_factory. cbn. rewrite lookup_insert_eq.
  unfold bind at 1. cbn.
  erewrite InitBackPointer_eq; [|cbn; apply lookup_insert_eq].
  cbn. by rewrite insert_insert_eq.
Qed.

Lemma ctor_null w f : CompletionCallbackFactory_ctor f None w = Fatal.
Proof.
  unfold CompletionCallbackFactory_ctor, bind, store_factory, load_factory.
  cbn. by rewrite lookup_insert_eq.
Qed.

Lemma dtor_eq w f fac p bp :
  factories w !! f = Some fac → back_pointer_ fac = Some p →
  back_pointers w !! p = Some bp → ref_ bp ≠ INT32_MIN →
  CompletionCallbackFactory_dtor f w
  = Ok tt {| back_pointers :=
               released p {| ref_ := ref_ bp; factory_ := None |} (back_pointers w);
             callbacks := callbacks w;
             factories := delete f (factories w);
             delivered := delivered w |}.
Proof.
  intros Hf Hfp Hp Hmin. unfold CompletionCallbackFactory_dtor, bind.
  by rewrite (ResetBackPointer_eq _ _ _ _ _ Hf Hfp Hp Hmin).
Qed.

Lemma CancelAll_eq w f fac p bp :
  factories w !! f = Some fac → back_pointer_ fac = Some p →
  back_pointers w !! p = Some bp → ref_ bp ≠ INT32_MIN →
  CancelAll f w
  = let h := released p {| ref_ := ref_ bp; factory_ := None |} (back_pointers w) in
    let p' := fresh (dom h) in
    Ok tt {| back_pointers := <[p' := {| ref_ := 1; factory_ := None |}]> h;
             callbacks := callbacks w;
             factories := <[f := {| object_ := object_ fac; back_pointer_ := Some p' |}]>
                            (factories w);
             delivered := delivered w |}.
Proof.
  intros Hf Hfp Hp Hmin. unfold CancelAll, bind.
  rewrite (ResetBackPointer_eq _ _ _ _ _ Hf Hfp Hp Hmin).
  by erewrite InitBackPointer_eq.
Qed.

Lemma NewCallback_eq w f fac p bp method :
  factories w !! f = Some fac → back_pointer_ fac = Some p →
  back_pointers w !! p = Some bp → ref_ bp ≠ INT32_MAX →
  NewCallback f method w
  = let c := fresh (dom (callbacks w)) in
    Ok c {| back_pointers :=
              <[p := {| ref_ := ref_ bp + 1; factory_ := factory_ bp |}]> (back_pointers w);
            callbacks :=
              <[c := {| thunk_ := CallbackImpl_Thunk; cb_back_pointer_ := p;
                        method_ := method |}]> (callbacks w);
            factories := factories w;
            delivered := delivered w |}.
Proof.
  intros Hf Hfp Hp Hmax.
  unfold NewCallback, read_back_pointer_, bind at 1 2, load_factory.
  rewrite Hf, Hfp. cbn.
  unfold new_CallbackImpl, new_callback, bind at 1. unfold bind at 1, load_callback.
  cbn. rewrite lookup_insert_eq. unfold bind. cbn.
  by erewrite AddRef_eq.
Qed.

Lemma BackPointer_GetObject_eq w p bp :
  back_pointers w !! p = Some bp →
  (∀ f, factory_ bp = Some f → is_Some (factories w !! f)) →
  BackPointer_GetObject p w = Ok (resolve w bp) w.
Proof.
  intros Hp Hlive. unfold BackPointer_GetObject, bind, load_back_pointer, resolve.
  rewrite Hp. destruct (factory_ bp) as [f|]; [|done].
  destruct (Hlive f eq_refl) as [fac Hf].
  unfold GetObject, bind, load_factory. by rewrite Hf.
Qed.

Lemma Thunk_eq w c cb bp result :
  callbacks w !! c = Some cb →
  back_pointers w !! cb_back_pointer_ cb = Some bp →
  ref_ bp ≠ INT32_MIN →
  (∀ f, factory_ bp = Some f → is_Some (factories w !! f)) →
  Thunk (Some c) result w
  = Ok tt {| back_pointers := released (cb_back_pointer_ cb) bp (back_pointers w);
             callbacks := delete c (callbacks w);
             factories := factories w;
             delivered := delivered w ++ delivery w bp (method_ cb) result |}.
Proof.
  intros Hc Hp Hmin Hlive. unfold Thunk, bind at 1, load_callback. rewrite Hc.
  unfold bind at 1. unfold bind at 1.
  rewrite (BackPointer_GetObject_eq _ _ _ Hp Hlive). unfold delivery.
  destruct (resolve w bp) as [o|].
  - unfold bind at 1, load_callback. rewrite Hc. cbn.
    unfold delete_CallbackImpl, CallbackImpl_dtor, bind, load_callback. cbn.
    rewrite Hc. by erewrite Release_eq.
  - cbn. unfold delete_CallbackImpl, CallbackImpl_dtor, bind, load_callback.
    rewrite Hc. erewrite Release_eq by done. cbn. by rewrite app_nil_r.
Qed.

Lemma Run_eq w c cb bp result :
  callbacks w !! c = Some cb →
  back_pointers w !! cb_back_pointer_ cb = Some bp →
  ref_ bp ≠ INT32_MIN →
  (∀ f, factory_ bp = Some f → is_Some (factories w !! f)) →
  Run c result w
  = Ok tt {| back_pointers := released (cb_back_pointer_ cb) bp (back_pointers w);
             callbacks := delete c (callbacks w);
             factories := factories w;
             delivered := delivered w ++ delivery w bp (method_ cb) result |}.
Proof.
  intros Hc Hp Hmin Hlive. unfold Run, bind, load_callback. rewrite Hc.
  destruct (thunk_ cb). cbn. by apply Thunk_eq.
Qed.

(** ** Holders under allocation and deallocation *)

Lemma factory_refs_insert m f fac q :
  m !! f = None →
  factory_refs (<[f := fac]> m) q
  = (factory_refs m q + one_if (back_pointer_ fac = Some q))%nat.
Proof.
  intros Hf. unfold factory_refs. rewrite count_insert.
  pose proof (count_delete (points_to q) m f) as Hd. rewrite Hf in Hd.
  unfold hit, one_if in *. repeat case_decide; unfold points_to in *; cbn in *;
    first [lia | done].
Qed.

Lemma factory_refs_delete m f fac q :
  m !! f = Some fac →
  factory_refs m q
  = (factory_refs (delete f m) q + one_if (back_pointer_ fac = Some q))%nat.
Proof.
  intros Hf. unfold factory_refs.
  pose proof (count_delete (points_to q) m f) as Hd. rewrite Hf in Hd.
  unfold hit, one_if in *. repeat case_decide; unfold points_to in *; cbn in *;
    first [lia | done].
Qed.

Lemma factory_refs_pos m f fac q :
  m !! f = Some fac → back_pointer_ fac = Some q → (0 < factory_refs m q)%nat.
Proof. intros Hf Hq. by eapply count_pos. Qed.

Lemma factory_refs_zero m q :
  (∀ f fac, m !! f = Some fac → back_pointer_ fac ≠ Some q) →
  factory_refs m q = 0%nat.
Proof. intros Hno. apply count_zero. intros f fac Hf. by apply Hno in Hf. Qed.

Lemma callback_refs_insert m c cb q :
  m !! c = None →
  callback_refs (<[c := cb]> m) q
  = (callback_refs m q + one_if (cb_back_pointer_ cb = q))%nat.
Proof.
  intros Hc. unfold callback_refs. rewrite count_insert.
  pose proof (count_delete (bound_to q) m c) as Hd. rewrite Hc in Hd.
  unfold hit, one_if in *. repeat case_decide; unfold bound_to in *; cbn in *;
    first [lia | done].
Qed.

Lemma callback_refs_delete m c cb q :
  m !! c = Some cb →
  callback_refs m q
  = (callback_refs (delete c m) q + one_if (cb_back_pointer_ cb = q))%nat.
Proof.
  intros Hc. unfold callback_refs.
  pose proof (count_delete (bound_to q) m c) as Hd. rewrite Hc in Hd.
  unfold hit, one_if in *. repeat case_decide; unfold bound_to in *; cbn in *;
    first [lia | done].
Qed.

Lemma callback_refs_pos m c cb q :
  m !! c = Some cb → cb_back_pointer_ cb = q → (0 < callback_refs m q)%nat.
Proof. intros Hc Hq. by eapply count_pos. Qed.

Lemma callback_refs_zero m q :
  (∀ c cb, m !! c = Some cb → cb_back_pointer_ cb ≠ q) →
  callback_refs m q = 0%nat.
Proof. intros Hno. apply count_zero. intros c cb Hc. by apply Hno in Hc. Qed.

Lemma fresh_back_pointer (h : gmap positive BackPointer) :
  h !! fresh (dom h) = None.
Proof. apply not_elem_of_dom, is_fresh. Qed.

Lemma fresh_callback (h : gmap positive CallbackImpl) :
  h !! fresh (dom h) = None.
Proof. apply not_elem_of_dom, is_fresh. Qed.

(** ** The invariant is kept by every call of the interface *)

Lemma wf_callback w :
  wf w → ∀ c cb, callbacks w !! c = Some cb →
  is_Some (back_pointers w !! cb_back_pointer_ cb).
Proof. intros (Hc & _ & _) c cb Hcb. by apply (Hc c cb). Qed.

Lemma wf_factory w :
  wf w → ∀ f fac, factories w !! f = Some fac →
  ∃ p, back_pointer_ fac = Some p ∧ is_Some (back_pointers w !! p).
Proof.
  intros (_ & Hf & _) f fac Hfac. specialize (Hf f fac Hfac).
  unfold factory_ok in Hf. destruct (back_pointer_ fac) as [p|]; [eauto|done].
Qed.

Lemma wf_count w :
  wf w → ∀ p bp, back_pointers w !! p = Some bp →
  ref_ bp = holders w p ∧ 0 < ref_ bp.
Proof. intros (_ & _ & Hb) p bp Hp. by apply (Hb p bp Hp). Qed.

Lemma wf_bound w :
  wf w → ∀ p bp f, back_pointers w !! p = Some bp → factory_ bp = Some f →
  ∃ fac, factories w !! f = Some fac ∧ back_pointer_ fac = Some p.
Proof.
  intros (_ & _ & Hb) p bp f Hp Hf. destruct (Hb p bp Hp) as (_ & Hbound & _).
  unfold bound_ok in Hbound. rewrite Hf in Hbound.
  destruct (factories w !! f) as [fac|]; [eauto|done].
Qed.

(** A token that is not allocated has no holder. *)
Lemma wf_free_no_holder w p :
  wf w → back_pointers w !! p = None → holders w p = 0.
Proof.
  intros Hw Hp. unfold holders.
  rewrite factory_refs_zero, callback_refs_zero; [done| |].
  - intros c cb Hc Hq. destruct (wf_callback w Hw c cb Hc) as [bp Hbp]. congruence.
  - intros f fac Hf Hq. destruct (wf_factory w Hw f fac Hf) as (p' & Hp' & [bp Hbp]).
    congruence.
Qed.

Lemma wf_owner w : wf w → ∀ p, (factory_refs (factories w) p ≤ 1)%nat.
Proof.
  intros Hw p. destruct (back_pointers w !! p) as [bp|] eqn:Hp.
  - destruct Hw as (_ & _ & Hb). by apply (Hb p bp Hp).
  - pose proof (wf_free_no_holder w p Hw Hp) as Hz. unfold holders in Hz. lia.
Qed.

Lemma mk_wf w :
  (∀ c cb, callbacks w !! c = Some cb →
     is_Some (back_pointers w !! cb_back_pointer_ cb)) →
  (∀ f fac, factories w !! f = Some fac →
     ∃ p, back_pointer_ fac = Some p ∧ is_Some (back_pointers w !! p)) →
  (∀ p bp, back_pointers w !! p = Some bp → ref_ bp = holders w p ∧ 0 < ref_ bp) →
  (∀ p bp f, back_pointers w !! p = Some bp → factory_ bp = Some f →
     ∃ fac, factories w !! f = Some fac ∧ back_pointer_ fac = Some p) →
  (∀ p, (factory_refs (factories w) p ≤ 1)%nat) →
  wf w.
Proof.
  intros Hc Hf Hcnt Hb Ho. split; [|split].
  - intros c cb Hcb. by apply (Hc c cb).
  - intros f fac Hfac. destruct (Hf f fac Hfac) as (p & Hp & Hsome).
    unfold factory_ok. by rewrite Hp.
  - intros p bp Hp. split; [by apply Hcnt|]. split; [|apply Ho].
    unfold bound_ok. destruct (factory_ bp) as [f|] eqn:Hfb; [|done].
    destruct (Hb p bp f Hp Hfb) as (fac & Hfac & Hfp). by rewrite Hfac.
Qed.

Lemma wf_empty : wf empty_world.
Proof. by repeat split. Qed.

Lemma wf_ref_min w p bp :
  wf w → back_pointers w !! p = Some bp → ref_ bp ≠ INT32_MIN.
Proof.
  intros Hw Hp. destruct (wf_count w Hw p bp Hp) as [_ Hpos].
  unfold INT32_MIN. lia.
Qed.

Lemma wf_live w p bp :
  wf w → back_pointers w !! p = Some bp →
  ∀ f, factory_ bp = Some f → is_Some (factories w !! f).
Proof.
  intros Hw Hp f Hf. destruct (wf_bound w Hw p bp f Hp Hf) as (fac & Hfac & _).
  by exists fac.
Qed.

(** Binding the storage at [f] to a fresh [BackPointer]. *)
Lemma wf_attach w f object :
  wf w → factories w !! f = None →
  wf {| back_pointers :=
          <[fresh (dom (back_pointers w)) := {| ref_ := 1; factory_ := None |}]>
            (back_pointers w);
        callbacks := callbacks w;
        factories :=
          <[f := {| object_ := object;
                    back_pointer_ := Some (fresh (dom (back_pointers w))) |}]>
            (factories w);
        delivered := delivered w |}.
Proof.
  intros Hw Hf. set (p := fresh (dom (back_pointers w))).
  assert (back_pointers w !! p = None) as Hp by apply fresh_back_pointer.
  pose proof (wf_free_no_holder w p Hw Hp) as Hzero. unfold holders in Hzero.
  apply mk_wf; cbn.
  - intros c cb Hc. destruct (wf_callback w Hw c cb Hc) as [bp Hbp].
    rewrite lookup_insert_ne; [by exists bp|congruence].
  - intros g fac. rewrite lookup_insert. case_decide as Hg.
    + intros [= <-]. exists p. cbn. rewrite lookup_insert_eq. eauto.
    + intros Hfac. destruct (wf_factory w Hw g fac Hfac) as (q & Hq & [bp Hbp]).
      exists q. split; [done|]. rewrite lookup_insert_ne; [by exists bp|congruence].
  - intros q bp. unfold holders; cbn. rewrite factory_refs_insert by done.
    cbn. unfold one_if. rewrite lookup_insert. case_decide as Hq.
    + subst q. intros [= <-]. cbn. rewrite decide_True by done. lia.
    + intros Hbp. rewrite decide_False by congruence.
      destruct (wf_count w Hw q bp Hbp) as [Hc Hpos]. unfold holders in Hc.
      split; [|done]. rewrite Hc. f_equal. lia.
  - intros q bp g. rewrite lookup_insert. case_decide as Hq.
    + intros [= <-]. done.
    + intros Hbp Hg. destruct (wf_bound w Hw q bp g Hbp Hg) as (fac & Hfac & Hfq).
      exists fac. split; [|done]. rewrite lookup_insert_ne; [done|congruence].
  - intros q. rewrite factory_refs_insert by done. cbn. unfold one_if.
    case_decide as Hq.
    + assert (q = p) as -> by congruence. lia.
    + pose proof (wf_owner w Hw q). lia.
Qed.

(** The factory at [f] lets go of its [BackPointer] and ends. *)
Lemma wf_detach w f fac p bp :
  wf w → factories w !! f = Some fac → back_pointer_ fac = Some p →
  back_pointers w !! p = Some bp →
  wf {| back_pointers :=
          released p {| ref_ := ref_ bp; factory_ := None |} (back_pointers w);
        callbacks := callbacks w;
        factories := delete f (factories w);
        delivered := delivered w |}.
Proof.
  intros Hw Hf Hfp Hp.
  destruct (wf_count w Hw p bp Hp) as [Hcnt Hpos]. unfold holders in Hcnt.
  pose proof (factory_refs_delete _ _ _ p Hf) as Hdel.
  unfold one_if in Hdel. rewrite decide_True in Hdel by done.
  assert (∀ q, q ≠ p →
            factory_refs (delete f (factories w)) q = factory_refs (factories w) q)
    as Hother.
  { intros q Hq. rewrite (factory_refs_delete _ _ _ q Hf). unfold one_if.
    rewrite decide_False by congruence. lia. }
  assert (∀ q bp', q ≠ p → back_pointers w !! q = Some bp' →
            ref_ bp' = holders {| back_pointers :=
                                   released p {| ref_ := ref_ bp; factory_ := None |}
                                     (back_pointers w);
                                 callbacks := callbacks w;
                                 factories := delete f (factories w);
                                 delivered := delivered w |} q ∧ 0 < ref_ bp')
    as Hcount.
  { intros q bp' Hq Hbp'. destruct (wf_count w Hw q bp' Hbp') as [Hc' Hpos'].
    split; [|done]. rewrite Hc'. unfold holders; cbn. by rewrite Hother. }
  assert (∀ q bp' g, q ≠ p → back_pointers w !! q = Some bp' →
            factory_ bp' = Some g →
            ∃ fac', delete f (factories w) !! g = Some fac'
                    ∧ back_pointer_ fac' = Some q) as Hbound.
  { intros q bp' g Hq Hbp' Hg.
    destruct (wf_bound w Hw q bp' g Hbp' Hg) as (fac' & Hfac' & Hfq).
    exists fac'. split; [|done]. rewrite lookup_delete_ne; [done|congruence]. }
  assert (∀ q, (factory_refs (delete f (factories w)) q ≤ 1)%nat) as Howner.
  { intros q. pose proof (wf_owner w Hw q).
    pose proof (factory_refs_delete _ _ _ q Hf). lia. }
  unfold released; cbn [ref_ factory_]. case_decide as Hz.
  - assert (callback_refs (callbacks w) p = 0%nat) as Hc0 by lia.
    assert (factory_refs (delete f (factories w)) p = 0%nat) as Hf0 by lia.
    apply mk_wf; cbn.
    + intros c cb Hc. destruct (wf_callback w Hw c cb Hc) as [bp' Hbp'].
      rewrite lookup_delete_ne; [by exists bp'|].
      intros Heq. pose proof (callback_refs_pos _ _ _ p Hc (eq_sym Heq)). lia.
    + intros g fac' Hg. pose proof Hg as Hg'.
      apply lookup_delete_Some in Hg' as [Hne Hg'].
      destruct (wf_factory w Hw g fac' Hg') as (q & Hq & [bp' Hbp']).
      exists q. split; [done|]. rewrite lookup_delete_ne; [by exists bp'|].
      intros <-. pose proof (factory_refs_pos _ _ _ p Hg Hq). lia.
    + intros q bp' Hbp'. apply lookup_delete_Some in Hbp' as [Hne Hbp'].
      specialize (Hcount q bp' (not_eq_sym Hne) Hbp').
      unfold released in Hcount; cbn [ref_ factory_] in Hcount.
      by rewrite decide_True in Hcount.
    + intros q bp' g Hbp'. apply lookup_delete_Some in Hbp' as [Hne Hbp'].
      by apply Hbound.
    + done.
  - apply mk_wf; cbn.
    + intros c cb Hc. destruct (wf_callback w Hw c cb Hc) as [bp' Hbp'].
      apply lookup_insert_is_Some'. right. by exists bp'.
    + intros g fac' Hg. apply lookup_delete_Some in Hg as [Hne Hg].
      destruct (wf_factory w Hw g fac' Hg) as (q & Hq & Hsome).
      exists q. split; [done|]. apply lookup_insert_is_Some'. by right.
    + intros q bp'. rewrite lookup_insert. case_decide as Hq.
      * subst q. intros [= <-]. cbn. unfold holders; cbn. lia.
      * intros Hbp'. specialize (Hcount q bp' (not_eq_sym Hq) Hbp').
        unfold released in Hcount; cbn [ref_ factory_] in Hcount.
        by rewrite decide_False in Hcount.
    + intros q bp' g. rewrite lookup_insert. case_decide as Hq.
      * intros [= <-]. done.
      * intros Hbp'. by apply Hbound.
    + done.
Qed.

(** A callback is allocated and takes a reference. *)
Lemma wf_mint w f fac p bp method :
  wf w → factories w !! f = Some fac → back_pointer_ fac = Some p →
  back_pointers w !! p = Some bp →
  wf {| back_pointers :=
          <[p := {| ref_ := ref_ bp + 1; factory_ := factory_ bp |}]> (back_pointers w);
        callbacks :=
          <[fresh (dom (callbacks w)) :=
              {| thunk_ := CallbackImpl_Thunk; cb_back_pointer_ := p;
                 method_ := method |}]> (callbacks w);
        factories := factories w;
        delivered := delivered w |}.
Proof.
  intros Hw Hf Hfp Hp. set (c := fresh (dom (callbacks w))).
  assert (callbacks w !! c = None) as Hc by apply fresh_callback.
  destruct (wf_count w Hw p bp Hp) as [Hcnt Hpos]. unfold holders in Hcnt.
  apply mk_wf; cbn.
  - intros c' cb. rewrite lookup_insert. case_decide as Hc'.
    + intros [= <-]. cbn. rewrite lookup_insert_eq. eauto.
    + intros Hcb. apply lookup_insert_is_Some'. right.
      by apply (wf_callback w Hw c' cb).
  - intros g fac' Hg. destruct (wf_factory w Hw g fac' Hg) as (q & Hq & Hsome).
    exists q. split; [done|]. apply lookup_insert_is_Some'. by right.
  - intros q bp'. unfold holders; cbn. rewrite callback_refs_insert by done.
    cbn. unfold one_if. rewrite lookup_insert. case_decide as Hq.
    + subst q. intros [= <-]. cbn. lia.
    + intros Hbp'.
      destruct (wf_count w Hw q bp' Hbp') as [Hc' Hpos']. unfold holders in Hc'.
      split; [|done]. rewrite Hc'. f_equal. lia.
  - intros q bp' g. rewrite lookup_insert. case_decide as Hq.
    + subst q. intros [= <-]. cbn. by apply (wf_bound w Hw p bp g).
    + intros Hbp'. by apply (wf_bound w Hw q bp' g).
  - apply (wf_owner w Hw).
Qed.

(** A callback is run: it lets go of its [BackPointer] and is deleted. *)
Lemma wf_run w c cb bp calls :
  wf w → callbacks w !! c = Some cb →
  back_pointers w !! cb_back_pointer_ cb = Some bp →
  wf {| back_pointers := released (cb_back_pointer_ cb) bp (back_pointers w);
        callbacks := delete c (callbacks w);
        factories := factories w;
        delivered := calls |}.
Proof.
  intros Hw Hc Hp. set (p := cb_back_pointer_ cb) in *.
  destruct (wf_count w Hw p bp Hp) as [Hcnt Hpos]. unfold holders in Hcnt.
  pose proof (callback_refs_delete _ _ _ p Hc) as Hdel.
  unfold one_if in Hdel. rewrite decide_True in Hdel by done.
  assert (∀ q, q ≠ p →
            callback_refs (delete c (callbacks w)) q = callback_refs (callbacks w) q)
    as Hother.
  { intros q Hq. rewrite (callback_refs_delete _ _ _ q Hc). unfold one_if.
    rewrite decide_False by (fold p; congruence). lia. }
  assert (∀ q bp', q ≠ p → back_pointers w !! q = Some bp' →
            ref_ bp' = Z.of_nat (factory_refs (factories w) q
                                 + callback_refs (delete c (callbacks w)) q)
            ∧ 0 < ref_ bp') as Hcount.
  { intros q bp' Hq Hbp'. destruct (wf_count w Hw q bp' Hbp') as [Hc' Hpos'].
    split; [|done]. rewrite Hc'. unfold holders. by rewrite Hother. }
  unfold released. case_decide as Hz.
  - assert (factory_refs (factories w) p = 0%nat) as Hf0 by lia.
    assert (callback_refs (delete c (callbacks w)) p = 0%nat) as Hc0 by lia.
    apply mk_wf; cbn.
    + intros c' cb' Hc'. pose proof Hc' as Hc''.
      apply lookup_delete_Some in Hc'' as [Hne Hc''].
      destruct (wf_callback w Hw c' cb' Hc'') as [bp' Hbp'].
      rewrite lookup_delete_ne; [by exists bp'|].
      intros Heq. pose proof (callback_refs_pos _ _ _ p Hc' (eq_sym Heq)). lia.
    + intros g fac' Hg. destruct (wf_factory w Hw g fac' Hg) as (q & Hq & [bp' Hbp']).
      exists q. split; [done|]. rewrite lookup_delete_ne; [by exists bp'|].
      intros <-. pose proof (factory_refs_pos _ _ _ p Hg Hq). lia.
    + intros q bp' Hbp'. apply lookup_delete_Some in Hbp' as [Hne Hbp'].
      unfold holders; cbn. by apply Hcount.
    + intros q bp' g Hbp'. apply lookup_delete_Some in Hbp' as [Hne Hbp'].
      by apply (wf_bound w Hw q bp' g).
    + apply (wf_owner w Hw).
  - apply mk_wf; cbn.
    + intros c' cb' Hc'. apply lookup_delete_Some in Hc' as [Hne Hc'].
      apply lookup_insert_is_Some'. right. by apply (wf_callback w Hw c' cb').
    + intros g fac' Hg. destruct (wf_factory w Hw g fac' Hg) as (q & Hq & Hsome).
      exists q. split; [done|]. apply lookup_insert_is_Some'. by right.
    + intros q bp'. unfold holders; cbn. rewrite lookup_insert. case_decide as Hq.
      * subst q. intros [= <-]. cbn. lia.
      * intros Hbp'. by apply Hcount.
    + intros q bp' g. rewrite lookup_insert. case_decide as Hq.
      * subst q. intros [= <-]. cbn. by apply (wf_bound w Hw p bp g).
      * intros Hbp'. by apply (wf_bound w Hw q bp' g).
    + apply (wf_owner w Hw).
Qed.

(** *** What a call that returns has found in the store *)

Lemma read_back_pointer__inv w f p w' :
  read_back_pointer_ f w = Ok p w' →
  w' = w ∧ ∃ fac, factories w !! f = Some fac ∧ back_pointer_ fac = Some p.
Proof.
  unfold read_back_pointer_, bind, load_factory.
  destruct (factories w !! f) as [fac|]; [|done].
  destruct (back_pointer_ fac) as [q|] eqn:Hq; [|done].
  intros [= <- <-]. eauto.
Qed.

Lemma AddRef_inv w p u w' :
  AddRef p w = Ok u w' →
  ∃ bp, back_pointers w !! p = Some bp ∧ ref_ bp ≠ INT32_MAX.
Proof.
  unfold AddRef, bind, load_back_pointer.
  destruct (back_pointers w !! p) as [bp|]; [|done].
  case_decide; [done|]. eauto.
Qed.

Lemma ResetBackPointer_inv w f u w' :
  ResetBackPointer f w = Ok u w' →
  ∃ fac p bp, factories w !! f = Some fac ∧ back_pointer_ fac = Some p
              ∧ back_pointers w !! p = Some bp ∧ ref_ bp ≠ INT32_MIN.
Proof.
  unfold ResetBackPointer. unfold bind at 1.
  destruct (read_back_pointer_ f w) as [p w1| |] eqn:Hr; [|done..].
  apply read_back_pointer__inv in Hr as (-> & fac & Hf & Hp).
  unfold bind at 1, DropFactory, bind at 1, load_back_pointer.
  destruct (back_pointers w !! p) as [bp|] eqn:Hbp; [|done]. cbn.
  unfold bind at 1, read_back_pointer_, bind at 1, load_factory. cbn.
  rewrite Hf, Hp. cbn. unfold Release, bind at 1, load_back_pointer. cbn.
  rewrite lookup_insert_eq. cbn. case_decide as Hmin; [done|].
  intros _. exists fac, p, bp. eauto.
Qed.

Lemma dtor_inv w f u w' :
  CompletionCallbackFactory_dtor f w = Ok u w' →
  ∃ fac p bp, factories w !! f = Some fac ∧ back_pointer_ fac = Some p
              ∧ back_pointers w !! p = Some bp ∧ ref_ bp ≠ INT32_MIN.
Proof.
  unfold CompletionCallbackFactory_dtor, bind.
  destruct (ResetBackPointer f w) as [u1 w1| |] eqn:Hr; [|done..].
  intros _. by eapply ResetBackPointer_inv.
Qed.

Lemma CancelAll_inv w f u w' :
  CancelAll f w = Ok u w' →
  ∃ fac p bp, factories w !! f = Some fac ∧ back_pointer_ fac = Some p
              ∧ back_pointers w !! p = Some bp ∧ ref_ bp ≠ INT32_MIN.
Proof.
  unfold CancelAll, bind.
  destruct (ResetBackPointer f w) as [u1 w1| |] eqn:Hr; [|done..].
  intros _. by eapply ResetBackPointer_inv.
Qed.

Lemma NewCallback_inv w f method c w' :
  NewCallback f method w = Ok c w' →
  ∃ fac p bp, factories w !! f = Some fac ∧ back_pointer_ fac = Some p
              ∧ back_pointers w !! p = Some bp ∧ ref_ bp ≠ INT32_MAX.
Proof.
  unfold NewCallback. unfold bind at 1.
  destruct (read_back_pointer_ f w) as [p w1| |] eqn:Hr; [|done..].
  apply read_back_pointer__inv in Hr as (-> & fac & Hf & Hp).
  unfold new_CallbackImpl, new_callback, bind at 1. unfold bind at 1, load_callback.
  cbn. rewrite lookup_insert_eq. unfold bind at 1. cbn.
  match goal with |- context [AddRef p ?w2] =>
    destruct (AddRef p w2) as [u2 w3| |] eqn:Ha; [|done..] end.
  apply AddRef_inv in Ha as (bp & Hbp & Hmax). intros _.
  exists fac, p, bp. eauto.
Qed.

Lemma Run_inv w c result u w' :
  Run c result w = Ok u w' → ∃ cb, callbacks w !! c = Some cb.
Proof.
  unfold Run, bind, load_callback.
  destruct (callbacks w !! c) as [cb|]; [eauto|done].
Qed.

(** *** The store after one step *)

Lemma step_stepped w o w' : wf w → step o w = Ok tt w' → stepped w o w'.
Proof.
  intros Hw. destruct o as [f object|f|f|f method|c result]; cbn.
  - destruct (factories w !! f) eqn:Hf; [done|].
    destruct object as [o|]; [|by rewrite ctor_null].
    rewrite ctor_eq. cbn. intros [= <-]. by constructor.
  - intros Hs. destruct (dtor_inv _ _ _ _ Hs) as (fac & p & bp & Hf & Hfp & Hbp & Hmin).
    rewrite (dtor_eq _ _ _ _ _ Hf Hfp Hbp Hmin) in Hs.
    injection Hs as <-. by eapply stepped_destroy.
  - intros Hs.
    destruct (CancelAll_inv _ _ _ _ Hs) as (fac & p & bp & Hf & Hfp & Hbp & Hmin).
    rewrite (CancelAll_eq _ _ _ _ _ Hf Hfp Hbp Hmin) in Hs.
    cbn in Hs. injection Hs as <-.
    pose proof (stepped_cancel w f fac p bp Hf Hfp Hbp) as Hst.
    unfold after_attach, after_detach in Hst. cbn in Hst.
    by rewrite insert_delete_eq in Hst.
  - unfold bind. destruct (NewCallback f method w) as [c w1| |] eqn:Hs; [|done..].
    cbn. intros [= <-].
    destruct (NewCallback_inv _ _ _ _ _ Hs) as (fac & p & bp & Hf & Hfp & Hbp & Hmax).
    rewrite (NewCallback_eq _ _ _ _ _ _ Hf Hfp Hbp Hmax) in Hs. cbn in Hs.
    injection Hs as _ <-. by eapply stepped_mint.
  - intros Hs. destruct (Run_inv _ _ _ _ _ Hs) as (cb & Hc).
    destruct (wf_callback w Hw c cb Hc) as [bp Hbp].
    rewrite (Run_eq _ _ _ _ _ Hc Hbp (wf_ref_min _ _ _ Hw Hbp)
               (wf_live _ _ _ Hw Hbp)) in Hs.
    injection Hs as <-. by constructor.
Qed.

(** *** Preservation *)

Lemma stepped_wf w o w' : wf w → stepped w o w' → wf w'.
Proof.
  intros Hw Hs. destruct Hs.
  - by apply wf_attach.
  - by eapply wf_detach.
  - apply wf_attach; [by eapply wf_detach|]. cbn. apply lookup_delete_eq.
  - by eapply wf_mint.
  - by eapply wf_run.
Qed.

Lemma step_wf w o w' : wf w → step o w = Ok tt w' → wf w'.
Proof. intros Hw Hs. eapply stepped_wf; [done|]. by apply step_stepped. Qed.

Lemma exec_wf ops : ∀ w w', wf w → exec ops w = Ok tt w' → wf w'.
Proof.
  induction ops as [|o ops IH]; intros w w' Hw; cbn.
  - by intros [= <-].
  - unfold bind. destruct (step o w) as [[] w1| |] eqn:Hs; [|done..].
    intros He. eapply IH; [|done]. by eapply step_wf.
Qed.

(** ** Callbacks and their tokens along a program *)

Lemma released_lookup_ne p bp (h : gmap positive BackPointer) q :
  q ≠ p → released p bp h !! q = h !! q.
Proof.
  intros Hq. unfold released. case_decide.
  - by rewrite lookup_delete_ne.
  - by rewrite lookup_insert_ne.
Qed.

Lemma released_lookup_eq p bp (h : gmap positive BackPointer) :
  released p bp h !! p
  = if decide (ref_ bp - 1 = 0) then None
    else Some {| ref_ := ref_ bp - 1; factory_ := factory_ bp |}.
Proof.
  unfold released. case_decide.
  - by rewrite lookup_delete_eq.
  - by rewrite lookup_insert_eq.
Qed.

Lemma stepped_keeps_callback w o w' c cb :
  stepped w o w' → callbacks w !! c = Some cb → invokes c o = false →
  callbacks w' !! c = Some cb.
Proof.
  intros Hs Hc Hni. destruct Hs; cbn in *; try done.
  - rewrite lookup_insert_ne; [done|].
    intros Heq. pose proof (fresh_callback (callbacks w)) as Hfr. congruence.
  - apply bool_decide_eq_false in Hni. by rewrite lookup_delete_ne.
Qed.

Lemma stepped_keeps_factory w o w' f fac :
  stepped w o w' → factories w !! f = Some fac →
  o ≠ Destroy f → o ≠ Cancel f →
  factories w' !! f = Some fac.
Proof.
  intros Hs Hf Hd Hc. destruct Hs; cbn in *; try done.
  - rewrite lookup_insert_ne; [done|congruence].
  - rewrite lookup_delete_ne; [done|congruence].
  - rewrite lookup_insert_ne, lookup_delete_ne; [done|congruence..].
Qed.

(** The token of a callback that is not run stays allocated; its [factory_]
    is kept or set to [NULL], and it is set to [NULL] when a factory that
    refers to the token is destroyed or cancels. *)
Lemma stepped_token w o w' c cb bp :
  wf w → stepped w o w' →
  callbacks w !! c = Some cb → invokes c o = false →
  back_pointers w !! cb_back_pointer_ cb = Some bp →
  ∃ bp', back_pointers w' !! cb_back_pointer_ cb = Some bp'
         ∧ (factory_ bp' = factory_ bp ∨ factory_ bp' = None)
         ∧ (∀ f fac, o = Destroy f ∨ o = Cancel f →
              factories w !! f = Some fac →
              back_pointer_ fac = Some (cb_back_pointer_ cb) →
              factory_ bp' = None).
Proof.
  intros Hw Hs Hc Hni Hp.
  pose proof (stepped_wf _ _ _ Hw Hs) as Hw'.
  pose proof (stepped_keeps_callback _ _ _ _ _ Hs Hc Hni) as Hc'.
  destruct (wf_callback _ Hw' _ _ Hc') as [bp' Hp'].
  exists bp'. split; [done|].
  remember (cb_back_pointer_ cb) as p eqn:Hpdef. clear Hpdef Hc Hc' Hni.
  destruct Hs as [f o Hf|f fac p0 bp0 Hf Hfp Hp0|f fac p0 bp0 Hf Hfp Hp0
                 |f fac p0 bp0 method Hf Hfp Hp0 Hmax|c0 cb0 bp0 result Hc0 Hp0];
    cbn in Hp'.
  - rewrite lookup_insert_ne in Hp' by (intros Heq; rewrite <- Heq in Hp;
      rewrite fresh_back_pointer in Hp; done).
    split; [left; congruence|]. intros g fac [Ho|Ho]; done.
  - destruct (decide (p = p0)) as [->|Hne].
    + rewrite released_lookup_eq in Hp'. case_decide; [done|].
      injection Hp' as <-. cbn. split; [by right|done].
    + rewrite released_lookup_ne in Hp' by done.
      split; [left; congruence|].
      intros g fac' [Ho|Ho] Hg Hgp; [|done]. injection Ho as <-. congruence.
  - rewrite lookup_insert in Hp'. case_decide as Hfr.
    + injection Hp' as <-. cbn. split; [by right|done].
    + destruct (decide (p = p0)) as [->|Hne].
      * rewrite released_lookup_eq in Hp'. case_decide; [done|].
        injection Hp' as <-. cbn. split; [by right|done].
      * rewrite released_lookup_ne in Hp' by done.
        split; [left; congruence|].
        intros g fac' [Ho|Ho] Hg Hgp; [done|]. injection Ho as <-. congruence.
  - split; [|intros g fac' [Ho|Ho]; done]. left.
    rewrite lookup_insert in Hp'. case_decide as Hq.
    + injection Hp' as <-. cbn. congruence.
    + congruence.
  - split; [|intros g fac' [Ho|Ho]; done]. left.
    destruct (decide (p = cb_back_pointer_ cb0)) as [Heq|Hne].
    + rewrite <- Heq in *. rewrite released_lookup_eq in Hp'.
      case_decide; [done|]. injection Hp' as <-. cbn. congruence.
    + rewrite released_lookup_ne in Hp' by done. congruence.
Qed.

(** *** Stores in which no [BackPointer] names a factory *)

Lemma released_unbound p bp (h : gmap positive BackPointer) :
  (∀ q bq, h !! q = Some bq → factory_ bq = None) → factory_ bp = None →
  ∀ q bq, released p bp h !! q = Some bq → factory_ bq = None.
Proof.
  intros Hh Hbp q bq. destruct (decide (q = p)) as [->|Hne].
  - rewrite released_lookup_eq. case_decide; [done|]. by intros [= <-].
  - rewrite released_lookup_ne by done. apply Hh.
Qed.

Lemma stepped_unbound w o w' : unbound w → stepped w o w' → unbound w'.
Proof.
  intros Hu Hs. destruct Hs; unfold unbound; cbn.
  - intros q bq. rewrite lookup_insert. case_decide; [by intros [= <-]|apply Hu].
  - by apply released_unbound.
  - intros q bq. rewrite lookup_insert. case_decide; [by intros [= <-]|].
    by apply released_unbound.
  - intros q bq. rewrite lookup_insert. case_decide; [|apply Hu].
    intros [= <-]. cbn. by eapply Hu.
  - apply released_unbound; [done|]. by eapply Hu.
Qed.

Lemma exec_unbound ops : ∀ w w',
  wf w → unbound w → exec ops w = Ok tt w' → unbound w'.
Proof.
  induction ops as [|o ops IH]; intros w w' Hw Hu; cbn.
  - by intros [= <-].
  - unfold bind. destruct (step o w) as [[] w1| |] eqn:Hs; [|done..].
    pose proof (step_stepped _ _ _ Hw Hs) as Hst.
    apply IH; [by eapply stepped_wf|by eapply stepped_unbound].
Qed.

Lemma unbound_empty : unbound empty_world.
Proof. intros p bp. cbn. by rewrite lookup_empty. Qed.

Lemma stepped_cancelled w o w' c cb :
  wf w → stepped w o w' → invokes c o = false →
  cancelled w c cb → cancelled w' c cb.
Proof.
  intros Hw Hs Hni (Hc & bp & Hp & Hnone).
  destruct (stepped_token _ _ _ _ _ _ Hw Hs Hc Hni Hp) as (bp' & Hp' & Hkeep & _).
  split; [by eapply stepped_keeps_callback|].
  exists bp'. split; [done|]. destruct Hkeep; congruence.
Qed.

Lemma stepped_pending w o w' f c cb :
  wf w → stepped w o w' → invokes c o = false →
  pending f w c cb →
  if decide (o = Destroy f ∨ o = Cancel f) then cancelled w' c cb
  else pending f w' c cb.
Proof.
  intros Hw Hs Hni (Hc & bp & Hp & Hown).
  destruct (stepped_token _ _ _ _ _ _ Hw Hs Hc Hni Hp) as (bp' & Hp' & Hkeep & Hdrop).
  pose proof (stepped_keeps_callback _ _ _ _ _ Hs Hc Hni) as Hc'.
  destruct Hown as [Hnone|(fac & Hf & Hfp)].
  - assert (factory_ bp' = None) as Hnone' by (destruct Hkeep; congruence).
    case_decide; (split; [done|]); exists bp'; eauto.
  - case_decide as Ho.
    + split; [done|]. exists bp'. split; [done|]. by eapply Hdrop.
    + split; [done|]. exists bp'. split; [done|]. right. exists fac.
      split; [|done]. eapply stepped_keeps_factory; [done..| |]; intros ->; tauto.
Qed.

Lemma exec_cancelled ops c cb : ∀ w w',
  wf w → cancelled w c cb → never_invokes c ops = true →
  exec ops w = Ok tt w' → wf w' ∧ cancelled w' c cb.
Proof.
  induction ops as [|o ops IH]; intros w w' Hw Hc; cbn.
  - by intros _ [= <-].
  - intros [Hni Hnis]%andb_true_iff. apply negb_true_iff in Hni.
    unfold bind. destruct (step o w) as [[] w1| |] eqn:Hs; [|done..].
    pose proof (step_stepped _ _ _ Hw Hs) as Hst.
    apply IH; [by eapply stepped_wf|by eapply stepped_cancelled|done].
Qed.

Lemma pending_cancelled f w c cb : cancelled w c cb → pending f w c cb.
Proof. intros (Hc & bp & Hp & Hnone). split; [done|]. exists bp. eauto. Qed.

Lemma exec_pending ops f c cb : ∀ w w',
  wf w → pending f w c cb → never_invokes c ops = true →
  exec ops w = Ok tt w' → wf w' ∧ pending f w' c cb.
Proof.
  induction ops as [|o ops IH]; intros w w' Hw Hc; cbn.
  - by intros _ [= <-].
  - intros [Hni Hnis]%andb_true_iff. apply negb_true_iff in Hni.
    unfold bind. destruct (step o w) as [[] w1| |] eqn:Hs; [|done..].
    pose proof (step_stepped _ _ _ Hw Hs) as Hst.
    pose proof (stepped_pending _ _ _ f _ _ Hw Hst Hni Hc) as Hnext.
    apply IH; [by eapply stepped_wf| |done].
    case_decide; [by apply pending_cancelled|done].
Qed.

(** The callback returned by [NewCallback] is pending on its factory. *)
Lemma NewCallback_pending w f method c w' :
  NewCallback f method w = Ok c w' →
  step (Mint f method) w = Ok tt w'
  ∧ ∃ p, pending f w' c {| thunk_ := CallbackImpl_Thunk; cb_back_pointer_ := p;
                           method_ := method |}.
Proof.
  intros Hn. split; [cbn; unfold bind; by rewrite Hn|].
  destruct (NewCallback_inv _ _ _ _ _ Hn) as (fac & p & bp & Hf & Hfp & Hbp & Hmax).
  rewrite (NewCallback_eq _ _ _ _ _ _ Hf Hfp Hbp Hmax) in Hn. cbn in Hn.
  injection Hn as <- <-. exists p. split; cbn.
  - apply lookup_insert_eq.
  - eexists. split; [apply lookup_insert_eq|]. right. eauto.
Qed.

(** Running a callback whose token names no factory. *)
Lemma Run_cancelled w c cb result :
  wf w → cancelled w c cb →
  ∃ bp w', back_pointers w !! cb_back_pointer_ cb = Some bp
    ∧ Run c result w = Ok tt w'
    ∧ delivered w' = delivered w
    ∧ callbacks w' = delete c (callbacks w)
    ∧ factories w' = factories w
    ∧ back_pointers w' = released (cb_back_pointer_ cb) bp (back_pointers w)
    ∧ wf w'.
Proof.
  intros Hw (Hc & bp & Hp & Hnone). exists bp. eexists. split; [done|].
  rewrite (Run_eq _ _ _ _ _ Hc Hp (wf_ref_min _ _ _ Hw Hp) (wf_live _ _ _ Hw Hp)).
  split; [done|]. cbn. unfold delivery, resolve. rewrite Hnone, app_nil_r.
  repeat (split; [done|]). by eapply wf_run.
Qed.

(** ** Properties *)

Lemma exec_reachable ops w :
  exec ops empty_world = Ok tt w → wf w ∧ unbound w.
Proof.
  intros He. split.
  - eapply exec_wf; [apply wf_empty|done].
  - eapply exec_unbound; [apply wf_empty|apply unbound_empty|done].
Qed.

(** X11: had the token named the live factory, [Run] would deliver: the call
    is made once, on the factory's object, with the result passed to [Run]. *)
Lemma Run_bound_delivers w c cb bp f fac o result :
  wf w → callbacks w !! c = Some cb →
  back_pointers w !! cb_back_pointer_ cb = Some bp →
  factory_ bp = Some f → factories w !! f = Some fac → object_ fac = Some o →
  ∃ w', Run c result w = Ok tt w'
        ∧ delivered w' = delivered w ++ [mkCall o (method_ cb) result]
        ∧ callbacks w' !! c = None.
Proof.
  intros Hw Hc Hp Hb Hf Ho. eexists.
  rewrite (Run_eq _ _ _ _ _ Hc Hp (wf_ref_min _ _ _ Hw Hp) (wf_live _ _ _ Hw Hp)).
  split; [done|]. cbn. unfold delivery, resolve. rewrite Hb, Hf, Ho.
  split; [done|]. apply lookup_delete_eq.
Qed.

(** In every store that a program reaches from the empty store, running a
    callback delivers no call: no token ever names a factory. *)
Lemma Run_reachable_delivers_nothing ops w c cb result :
  exec ops empty_world = Ok tt w → callbacks w !! c = Some cb →
  ∃ w', Run c result w = Ok tt w' ∧ delivered w' = delivered w.
Proof.
  intros He Hc. destruct (exec_reachable _ _ He) as [Hw Hu].
  destruct (wf_callback w Hw c cb Hc) as [bp Hp].
  destruct (Run_cancelled w c cb result Hw) as (bp' & w' & _ & Hr & Hd & _).
  { split; [done|]. exists bp. split; [done|]. by eapply Hu. }
  eauto.
Qed.

(** C1, evaluated on the code: a factory is constructed for the object at
    [9], a callback bound to method [3] is minted, the factory is neither
    reset nor destroyed, and the callback is run with result [42].  The
    callback is deleted, but no call is delivered: the token made by
    [InitBackPointer] has a null [factory_], as [BackPointer]'s constructor
    leaves it. *)
Lemma Run_on_live_factory_delivers_nothing :
  let w := world_after [Construct 5 (Some 9%positive); Mint 5 3%nat] in
  factories w !! 5%positive
    = Some {| object_ := Some 9%positive; back_pointer_ := Some 1%positive |}
  ∧ callbacks w !! 1%positive
    = Some {| thunk_ := CallbackImpl_Thunk; cb_back_pointer_ := 1; method_ := 3 |}
  ∧ ∃ w', Run 1 42 w = Ok tt w'
          ∧ delivered w' = []
          ∧ delivered w' ≠ [mkCall 9 3 42]
          ∧ callbacks w' !! 1%positive = None.
Proof.
  cbn zeta. split; [by vm_compute|]. split; [by vm_compute|].
  eexists. split; [vm_compute; reflexivity|].
  split; [done|]. split; [done|]. by vm_compute.
Qed.

(** C2: a callback minted by a factory, not run until the factory is
    destroyed or has cancelled, and run at any later point, returns without
    undefined behaviour, delivers no call, is deleted, and gives back its
    reference on the token, which is freed when that was the last one; the
    store stays well formed, so that no token is left without holder. *)
Theorem Run_after_factory_gone_delivers_nothing
    w0 f method c w1 ops2 w2 w3 ops3 w4 result :
  wf w0 →
  NewCallback f method w0 = Ok c w1 →
  never_invokes c ops2 = true → exec ops2 w1 = Ok tt w2 →
  (CompletionCallbackFactory_dtor f w2 = Ok tt w3 ∨ CancelAll f w2 = Ok tt w3) →
  never_invokes c ops3 = true → exec ops3 w3 = Ok tt w4 →
  ∃ cb bp w5,
    callbacks w4 !! c = Some cb
    ∧ method_ cb = method
    ∧ back_pointers w4 !! cb_back_pointer_ cb = Some bp
    ∧ Run c result w4 = Ok tt w5
    ∧ delivered w5 = delivered w4
    ∧ callbacks w5 = delete c (callbacks w4)
    ∧ factories w5 = factories w4
    ∧ back_pointers w5 !! cb_back_pointer_ cb
      = (if decide (ref_ bp = 1) then None
         else Some {| ref_ := ref_ bp - 1; factory_ := None |})
    ∧ wf w5.
Proof.
  intros Hw0 Hmint Hni2 He2 Hgone Hni3 He3.
  destruct (NewCallback_pending _ _ _ _ _ Hmint) as (Hstep & p & Hpend).
  pose proof (step_wf _ _ _ Hw0 Hstep) as Hw1.
  destruct (exec_pending _ _ _ _ _ _ Hw1 Hpend Hni2 He2) as [Hw2 Hpend2].
  assert (∃ o, (o = Destroy f ∨ o = Cancel f) ∧ step o w2 = Ok tt w3)
    as (o & Ho & Hs3).
  { destruct Hgone; [exists (Destroy f)|exists (Cancel f)]; eauto. }
  pose proof (step_stepped _ _ _ Hw2 Hs3) as Hst3.
  assert (invokes c o = false) as Hnio by (by destruct Ho as [-> | ->]).
  pose proof (stepped_pending _ _ _ f _ _ Hw2 Hst3 Hnio Hpend2) as Hc3.
  rewrite decide_True in Hc3 by done.
  pose proof (stepped_wf _ _ _ Hw2 Hst3) as Hw3.
  destruct (exec_cancelled _ _ _ _ _ Hw3 Hc3 Hni3 He3) as [Hw4 Hc4].
  destruct (Run_cancelled _ _ _ result Hw4 Hc4)
    as (bp & w5 & Hp & Hr & Hd & Hcb & Hf & Hbp & Hw5).
  eexists _, bp, w5. split; [apply Hc4|]. split; [done|].
  repeat (split; [done|]). split; [|done].
  rewrite Hbp, released_lookup_eq. cbn.
  destruct Hc4 as (_ & bp' & Hp' & Hnone). cbn in Hp, Hp'.
  assert (bp' = bp) as -> by congruence. rewrite Hnone.
  repeat case_decide; first [done | lia].
Qed.

(** A factory mints two callbacks and is destroyed; the second callback is
    run, then the first. *)
Lemma Run_after_factory_gone_delivers_nothing_witness :
  let w4 := world_after [Construct 5 (Some 9%positive); Mint 5 3%nat; Mint 5 4%nat;
                         Destroy 5; Invoke 2 7] in
  ∃ cb bp w5,
    callbacks w4 !! 1%positive = Some cb
    ∧ method_ cb = 3%nat
    ∧ back_pointers w4 !! cb_back_pointer_ cb = Some bp
    ∧ Run 1 42 w4 = Ok tt w5
    ∧ delivered w5 = delivered w4
    ∧ callbacks w5 = delete 1%positive (callbacks w4)
    ∧ factories w5 = factories w4
    ∧ back_pointers w5 !! cb_back_pointer_ cb
      = (if decide (ref_ bp = 1) then None
         else Some {| ref_ := ref_ bp - 1; factory_ := None |})
    ∧ wf w5.
Proof.
  apply (Run_after_factory_gone_delivers_nothing
           (world_after [Construct 5 (Some 9%positive)]) 5%positive 3%nat 1%positive
           (world_after [Construct 5 (Some 9%positive); Mint 5 3%nat])
           [Mint 5 4%nat]
           (world_after [Construct 5 (Some 9%positive); Mint 5 3%nat; Mint 5 4%nat])
           (world_after [Construct 5 (Some 9%positive); Mint 5 3%nat; Mint 5 4%nat;
                         Destroy 5])
           [Invoke 2 7]).
  - apply (bool_decide_unpack _). vm_compute. reflexivity.
  - vm_compute. reflexivity.
  - reflexivity.
  - vm_compute. reflexivity.
  - left. vm_compute. reflexivity.
  - reflexivity.
  - vm_compute. reflexivity.
Defined.

(** C5: in every store that a program reaches, [ref_] of an allocated token
    is the number of its holders: the factories that refer to it, of which
    there is at most one, and the callbacks not yet run that refer to it.
    A token is free exactly when it has no holder: the count reaches zero,
    and the token is freed, when the factory has let go of it and every
    callback minted under it has been run, and not before. *)
Theorem ref_counts_holders ops w p :
  exec ops empty_world = Ok tt w →
  (factory_refs (factories w) p ≤ 1)%nat
  ∧ (∀ bp, back_pointers w !! p = Some bp → ref_ bp = holders w p)
  ∧ (back_pointers w !! p = None ↔ holders w p = 0).
Proof.
  intros He. destruct (exec_reachable _ _ He) as [Hw _].
  split; [by apply wf_owner|]. split.
  - intros bp Hp. by destruct (wf_count w Hw p bp Hp).
  - split; [by apply wf_free_no_holder|].
    intros Hz. destruct (back_pointers w !! p) as [bp|] eqn:Hp; [|done].
    destruct (wf_count w Hw p bp Hp) as [Hc Hpos]. lia.
Qed.

(** The factory and two callbacks hold token [1]; after the factory has
    cancelled, a callback has been run and another minted, token [1] is held
    by one callback and token [2] by the factory and one callback. *)
Lemma ref_counts_holders_witness :
  let w := world_after [Construct 5 (Some 9%positive); Mint 5 3%nat; Mint 5 4%nat;
                        Cancel 5; Invoke 1 0; Mint 5 6%nat] in
  (factory_refs (factories w) 2 ≤ 1)%nat
  ∧ (∀ bp, back_pointers w !! 2%positive = Some bp → ref_ bp = holders w 2)
  ∧ (back_pointers w !! 2%positive = None ↔ holders w 2 = 0).
Proof.
  apply (ref_counts_holders
           [Construct 5 (Some 9%positive); Mint 5 3%nat; Mint 5 4%nat;
            Cancel 5; Invoke 1 0; Mint 5 6%nat]).
  vm_compute. reflexivity.
Defined.

(** C6: running a callback of a well-formed store always returns; whether
    or not its token resolves to an object, the callback is deleted and its
    reference on the token is given back: [ref_] is one less, or the token
    is freed when it was the last reference.  Nothing else changes but the
    log of calls, which grows by the delivery, if any. *)
Theorem Run_consumes_callback w c cb result :
  wf w → callbacks w !! c = Some cb →
  ∃ bp w',
    back_pointers w !! cb_back_pointer_ cb = Some bp
    ∧ Run c result w = Ok tt w'
    ∧ callbacks w' = delete c (callbacks w)
    ∧ back_pointers w' !! cb_back_pointer_ cb
      = (if decide (ref_ bp = 1) then None
         else Some {| ref_ := ref_ bp - 1; factory_ := factory_ bp |})
    ∧ (∀ q, q ≠ cb_back_pointer_ cb → back_pointers w' !! q = back_pointers w !! q)
    ∧ factories w' = factories w
    ∧ delivered w'
      = delivered w ++ match resolve w bp with
                       | Some o => [mkCall o (method_ cb) result]
                       | None => []
                       end.
Proof.
  intros Hw Hc. destruct (wf_callback w Hw c cb Hc) as [bp Hp].
  exists bp. eexists. split; [done|].
  rewrite (Run_eq _ _ _ _ _ Hc Hp (wf_ref_min _ _ _ Hw Hp) (wf_live _ _ _ Hw Hp)).
  split; [done|]. cbn. split; [done|]. split.
  { rewrite released_lookup_eq. repeat case_decide; first [done | lia]. }
  split; [|done]. intros q Hq. by apply released_lookup_ne.
Qed.

Lemma Run_consumes_callback_witness :
  let w := world_after [Construct 5 (Some 9%positive); Mint 5 3%nat; Cancel 5] in
  ∃ bp w',
    back_pointers w !! 1%positive = Some bp
    ∧ Run 1 42 w = Ok tt w'
    ∧ callbacks w' = delete 1%positive (callbacks w)
    ∧ back_pointers w' !! 1%positive
      = (if decide (ref_ bp = 1) then None
         else Some {| ref_ := ref_ bp - 1; factory_ := factory_ bp |})
    ∧ (∀ q, q ≠ 1%positive → back_pointers w' !! q = back_pointers w !! q)
    ∧ factories w' = factories w
    ∧ delivered w'
      = delivered w ++ match resolve w bp with
                       | Some o => [mkCall o 3%nat 42]
                       | None => []
                       end.
Proof.
  apply (Run_consumes_callback
           (world_after [Construct 5 (Some 9%positive); Mint 5 3%nat; Cancel 5])
           1%positive
           {| thunk_ := CallbackImpl_Thunk; cb_back_pointer_ := 1; method_ := 3 |} 42).
  - apply (bool_decide_unpack _). vm_compute. reflexivity.
  - vm_compute. reflexivity.
Defined.

Lemma bound_world_wf : wf bound_world.
Proof. apply (bool_decide_unpack _). vm_compute. reflexivity. Qed.

Lemma Run_bound_world :
  Run 1 42 bound_world
  = Ok tt {| back_pointers := {[ 1%positive := {| ref_ := 1; factory_ := Some 5%positive |} ]};
             callbacks := ∅;
             factories := factories bound_world;
             delivered := [mkCall 9 3 42] |}.
Proof. vm_compute. reflexivity. Qed.

(** ** [CancelAll] and what it leaves alone *)

Lemma CancelAll_effect f w w' :
  CancelAll f w = Ok tt w' →
  ∃ fac p bp p',
    factories w !! f = Some fac ∧ back_pointer_ fac = Some p
    ∧ back_pointers w !! p = Some bp
    ∧ factories w'
      = <[f := {| object_ := object_ fac; back_pointer_ := Some p' |}]> (factories w)
    ∧ callbacks w' = callbacks w
    ∧ delivered w' = delivered w
    ∧ back_pointers w' !! p' = Some {| ref_ := 1; factory_ := None |}
    ∧ (ref_ bp ≠ 1 →
       back_pointers w' !! p = Some {| ref_ := ref_ bp - 1; factory_ := None |})
    ∧ (ref_ bp = 1 → p' = p ∨ back_pointers w' !! p = None)
    ∧ (∀ q, q ≠ p → q ≠ p' → back_pointers w' !! q = back_pointers w !! q).
Proof.
  intros Hs.
  destruct (CancelAll_inv _ _ _ _ Hs) as (fac & p & bp & Hf & Hfp & Hbp & Hmin).
  rewrite (CancelAll_eq _ _ _ _ _ Hf Hfp Hbp Hmin) in Hs. cbn in Hs.
  injection Hs as <-.
  set (h := released p {| ref_ := ref_ bp; factory_ := None |} (back_pointers w)).
  exists fac, p, bp, (fresh (dom h)). cbn.
  repeat (split; [done|]). split; [apply lookup_insert_eq|]. split.
  - intros Hone.
    assert (h !! p = Some {| ref_ := ref_ bp - 1; factory_ := None |}) as Hhp.
    { unfold h. rewrite released_lookup_eq. cbn.
      case_decide; [lia|done]. }
    rewrite lookup_insert_ne; [done|].
    intros Heq. rewrite <- Heq, fresh_back_pointer in Hhp. done.
  - split; [|intros q Hq Hq'; rewrite lookup_insert_ne by done;
             unfold h; by apply released_lookup_ne].
    intros Hone. destruct (decide (fresh (dom h) = p)) as [Heq|Hne]; [by left|].
    right. rewrite lookup_insert_ne by done.
    unfold h. rewrite released_lookup_eq. cbn. case_decide; [done|lia].
Qed.

(** C10: one [CancelAll] gives the factory a fresh token with one reference
    and no factory, nulls [factory_] in the token it had and takes one
    reference from it (which frees it when that was the last one), and
    leaves every other token, every callback and the calls delivered as
    they were; [object_] is kept.  After any number of
    [CancelAll], every callback is stored as before, every factory has the
    [object_] it had, and [GetObject] returns what it returned before. *)
Theorem CancelAll_frame :
  (∀ f w w', CancelAll f w = Ok tt w' →
     ∃ fac p bp p',
       factories w !! f = Some fac ∧ back_pointer_ fac = Some p
       ∧ back_pointers w !! p = Some bp
       ∧ factories w'
         = <[f := {| object_ := object_ fac; back_pointer_ := Some p' |}]> (factories w)
       ∧ callbacks w' = callbacks w
       ∧ delivered w' = delivered w
       ∧ back_pointers w' !! p' = Some {| ref_ := 1; factory_ := None |}
       ∧ (ref_ bp ≠ 1 →
          back_pointers w' !! p = Some {| ref_ := ref_ bp - 1; factory_ := None |})
       ∧ (ref_ bp = 1 → p' = p ∨ back_pointers w' !! p = None)
       ∧ (∀ q, q ≠ p → q ≠ p' → back_pointers w' !! q = back_pointers w !! q))
  ∧ (∀ n f w w', CancelAll_times n f w = Ok tt w' →
       callbacks w' = callbacks w
       ∧ delivered w' = delivered w
       ∧ (∀ g, object_ <$> factories w' !! g = object_ <$> factories w !! g)
       ∧ (∀ o, GetObject f w = Ok o w → GetObject f w' = Ok o w')).
Proof.
  split; [apply CancelAll_effect|].
  assert (∀ n f w w', CancelAll_times n f w = Ok tt w' →
            callbacks w' = callbacks w ∧ delivered w' = delivered w
            ∧ ∀ g, object_ <$> factories w' !! g = object_ <$> factories w !! g)
    as Hframe.
  { induction n as [|n IH]; intros f w w'; cbn.
    - by intros [= <-].
    - unfold bind. destruct (CancelAll f w) as [[] w1| |] eqn:Hs; [|done..].
      intros Hn. destruct (IH _ _ _ Hn) as (Hcb & Hd & Hobj).
      destruct (CancelAll_effect _ _ _ Hs)
        as (fac & p & bp & p' & Hf & _ & _ & Hfs & Hcb1 & Hd1 & _).
      split; [congruence|]. split; [congruence|].
      intros g. rewrite Hobj, Hfs. destruct (decide (g = f)) as [->|Hne].
      + by rewrite lookup_insert_eq, Hf.
      + by rewrite lookup_insert_ne. }
  intros n f w w' Hn. destruct (Hframe _ _ _ _ Hn) as (Hcb & Hd & Hobj).
  repeat (split; [done|]). intros o. specialize (Hobj f).
  unfold GetObject, bind, load_factory, ret.
  destruct (factories w !! f) as [fac|]; [|done].
  destruct (factories w' !! f) as [fac'|]; [|done].
  cbn in Hobj. intros [= <-]. congruence.
Qed.

Lemma CancelAll_frame_witness :
  let w := world_after [Construct 5 (Some 9%positive); Mint 5 3%nat] in
  let w' := world_after [Construct 5 (Some 9%positive); Mint 5 3%nat;
                         Cancel 5; Cancel 5; Cancel 5] in
  callbacks w' = callbacks w
  ∧ delivered w' = delivered w
  ∧ (∀ g, object_ <$> factories w' !! g = object_ <$> factories w !! g)
  ∧ (∀ o, GetObject 5 w = Ok o w → GetObject 5 w' = Ok o w').
Proof.
  apply (proj2 CancelAll_frame 3%nat 5%positive
           (world_after [Construct 5 (Some 9%positive); Mint 5 3%nat])).
  vm_compute. reflexivity.
Defined.

(** ** Construction *)

(** C9: constructing a factory with a null owner stops at [PP_DCHECK] in
    every store, and with any other owner the constructor returns: the
    assertion is not reached to fail. *)
Theorem ctor_null_owner_is_fatal :
  (∀ f w, CompletionCallbackFactory_ctor f None w = Fatal)
  ∧ (∀ f o w, ∃ w', CompletionCallbackFactory_ctor f (Some o) w = Ok tt w'
                    ∧ GetObject f w' = Ok (Some o) w').
Proof.
  split; [intros f w; apply ctor_null|].
  intros f o w. eexists. split; [apply ctor_eq|].
  cbn. unfold GetObject, bind, load_factory. cbn. by rewrite lookup_insert_eq.
Qed.

(** C4, evaluated on the code: after the construction of a factory for the
    object at [9], the factory's token is allocated with one reference, but
    it resolves to no object although the factory is alive and
    [GetObject] of the factory returns the object. *)
Lemma fresh_token_resolves_to_null :
  let w := world_after [Construct 5 (Some 9%positive)] in
  factories w !! 5%positive
    = Some {| object_ := Some 9%positive; back_pointer_ := Some 1%positive |}
  ∧ back_pointers w !! 1%positive = Some {| ref_ := 1; factory_ := None |}
  ∧ GetObject 5 w = Ok (Some 9%positive) w
  ∧ BackPointer_GetObject 1 w = Ok None w.
Proof. cbn zeta. repeat split; by vm_compute. Qed.

(** C3, evaluated on the code: a callback is minted, the factory cancels, a
    second callback is minted, and both are run.  The first delivers
    nothing; the second, minted after [CancelAll] on a live factory,
    delivers nothing either. *)
Lemma callback_minted_after_CancelAll_delivers_nothing :
  let w := world_after [Construct 5 (Some 9%positive); Mint 5 3%nat; Cancel 5;
                        Mint 5 4%nat; Invoke 1 (-1)] in
  delivered w = []
  ∧ factories w !! 5%positive
    = Some {| object_ := Some 9%positive; back_pointer_ := Some 2%positive |}
  ∧ callbacks w !! 2%positive
    = Some {| thunk_ := CallbackImpl_Thunk; cb_back_pointer_ := 2; method_ := 4 |}
  ∧ ∃ w', Run 2 7 w = Ok tt w'
          ∧ delivered w' = []
          ∧ delivered w' ≠ [mkCall 9 4 7].
Proof.
  cbn zeta. split; [by vm_compute|]. split; [by vm_compute|].
  split; [by vm_compute|]. eexists. split; [vm_compute; reflexivity|]. done.
Qed.

(** ** Conversion to [PP_CompletionCallback] *)

(** C7: [ToPP] of a null pointer returns, in every store and without
    changing it, the value of [PP_BlockUntilComplete()]. *)
Theorem ToPP_null (PP_BlockUntilComplete : PP_CompletionCallback) (w : World) :
  ToPP PP_BlockUntilComplete None w = Ok PP_BlockUntilComplete w.
Proof. reflexivity. Qed.

(** C8: the pair that [ToPP] makes of a callback, invoked with a result in
    any store in which the callback is as it was at the conversion, does
    what [Run] does on the callback with that result. *)
Theorem ToPP_pair_runs_like_Run
    (PP_BlockUntilComplete : PP_CompletionCallback) c w0 pp w0' w result :
  ToPP PP_BlockUntilComplete (Some c) w0 = Ok pp w0' →
  callbacks w !! c = callbacks w0 !! c →
  w0' = w0
  ∧ user_data pp = Some c
  ∧ PP_RunCompletionCallback pp result w = Run c result w.
Proof.
  unfold ToPP, bind, load_callback, ret. intros Hpp Hsame.
  destruct (callbacks w0 !! c) as [cb|] eqn:Hc; [|done].
  injection Hpp as <- <-. split; [done|]. split; [done|].
  unfold PP_RunCompletionCallback, Run, bind, load_callback. cbn.
  by rewrite Hsame.
Qed.

Lemma ToPP_pair_runs_like_Run_witness :
  let w0 := world_after [Construct 5 (Some 9%positive); Mint 5 3%nat] in
  let w := world_after [Construct 5 (Some 9%positive); Mint 5 3%nat; Cancel 5] in
  let pp := {| func := Some CallbackImpl_Thunk; user_data := Some 1%positive |} in
  w0 = w0
  ∧ user_data pp = Some 1%positive
  ∧ PP_RunCompletionCallback pp 42 w = Run 1 42 w.
Proof.
  apply (ToPP_pair_runs_like_Run {| func := None; user_data := None |} 1%positive
           (world_after [Construct 5 (Some 9%positive); Mint 5 3%nat])).
  - vm_compute. reflexivity.
  - vm_compute. reflexivity.
Defined.


(** ** Further properties of the member functions *)

(** X1: when [NewCallback] returns, the callback is at an address that held
    no callback, it stores [CallbackImpl::Thunk], the factory's current
    token and the method, that token has one reference more, and the other
    callbacks, the other tokens, the factories and the calls delivered are
    as before. *)
Theorem NewCallback_mints w f method c w' :
  NewCallback f method w = Ok c w' →
  ∃ fac p bp,
    factories w !! f = Some fac ∧ back_pointer_ fac = Some p
    ∧ back_pointers w !! p = Some bp ∧ ref_ bp ≠ INT32_MAX
    ∧ callbacks w !! c = None
    ∧ callbacks w'
      = <[c := {| thunk_ := CallbackImpl_Thunk; cb_back_pointer_ := p;
                  method_ := method |}]> (callbacks w)
    ∧ back_pointers w'
      = <[p := {| ref_ := ref_ bp + 1; factory_ := factory_ bp |}]> (back_pointers w)
    ∧ factories w' = factories w
    ∧ delivered w' = delivered w.
Proof.
  intros Hn.
  destruct (NewCallback_inv _ _ _ _ _ Hn) as (fac & p & bp & Hf & Hfp & Hbp & Hmax).
  rewrite (NewCallback_eq _ _ _ _ _ _ Hf Hfp Hbp Hmax) in Hn. cbn in Hn.
  injection Hn as <- <-. exists fac, p, bp. cbn.
  repeat (split; [done|]). split; [apply fresh_callback|done].
Qed.

Lemma NewCallback_mints_witness :
  let w := world_after [Construct 5 (Some 9%positive); Mint 5 3%nat] in
  let w' := world_after [Construct 5 (Some 9%positive); Mint 5 3%nat; Mint 5 4%nat] in
  ∃ fac p bp,
    factories w !! 5%positive = Some fac ∧ back_pointer_ fac = Some p
    ∧ back_pointers w !! p = Some bp ∧ ref_ bp ≠ INT32_MAX
    ∧ callbacks w !! 2%positive = None
    ∧ callbacks w'
      = <[2%positive := {| thunk_ := CallbackImpl_Thunk; cb_back_pointer_ := p;
                           method_ := 4 |}]> (callbacks w)
    ∧ back_pointers w'
      = <[p := {| ref_ := ref_ bp + 1; factory_ := factory_ bp |}]> (back_pointers w)
    ∧ factories w' = factories w
    ∧ delivered w' = delivered w.
Proof.
  apply (NewCallback_mints
           (world_after [Construct 5 (Some 9%positive); Mint 5 3%nat])
           5%positive 4%nat 2%positive).
  vm_compute. reflexivity.
Defined.

(** X2: in a well-formed store, a callback that is run right after it was
    minted returns, and the tokens, the callbacks and the factories are
    again what they were before [NewCallback]: the pair allocates nothing
    that stays. *)
Theorem NewCallback_then_Run_restores w f method c w1 result :
  wf w → NewCallback f method w = Ok c w1 →
  ∃ w2, Run c result w1 = Ok tt w2
        ∧ back_pointers w2 = back_pointers w
        ∧ callbacks w2 = callbacks w
        ∧ factories w2 = factories w.
Proof.
  intros Hw Hn.
  destruct (NewCallback_inv _ _ _ _ _ Hn) as (fac & p & bp & Hf & Hfp & Hbp & Hmax).
  rewrite (NewCallback_eq _ _ _ _ _ _ Hf Hfp Hbp Hmax) in Hn. cbn in Hn.
  injection Hn as <- <-.
  pose proof (wf_mint w f fac p bp method Hw Hf Hfp Hbp) as Hw1.
  destruct (wf_count w Hw p bp Hbp) as [_ Hpos].
  eexists. split.
  - eapply Run_eq; cbn.
    + apply lookup_insert_eq.
    + apply lookup_insert_eq.
    + cbn. unfold INT32_MIN. lia.
    + cbn. by apply (wf_live w p bp).
  - cbn. split; [|split; [|done]].
    + unfold released. cbn. rewrite decide_False by lia.
      rewrite insert_insert_eq. replace (ref_ bp + 1 - 1) with (ref_ bp) by lia.
      apply insert_id. by destruct bp.
    + rewrite delete_insert_eq. apply delete_id, fresh_callback.
Qed.

Lemma NewCallback_then_Run_restores_witness :
  let w := world_after [Construct 5 (Some 9%positive); Mint 5 3%nat] in
  let w1 := world_after [Construct 5 (Some 9%positive); Mint 5 3%nat; Mint 5 4%nat] in
  ∃ w2, Run 2 7 w1 = Ok tt w2
        ∧ back_pointers w2 = back_pointers w
        ∧ callbacks w2 = callbacks w
        ∧ factories w2 = factories w.
Proof.
  apply (NewCallback_then_Run_restores
           (world_after [Construct 5 (Some 9%positive); Mint 5 3%nat])
           5%positive 4%nat 2%positive).
  - apply (bool_decide_unpack _). vm_compute. reflexivity.
  - vm_compute. reflexivity.
Defined.

(** X3: a factory constructed on free storage with a non-null owner and
    destroyed at once leaves the store exactly as it was: the token made by
    the constructor is freed by the destructor. *)
Theorem ctor_then_dtor_restores w f o :
  factories w !! f = None →
  ∃ w1, CompletionCallbackFactory_ctor f (Some o) w = Ok tt w1
        ∧ CompletionCallbackFactory_dtor f w1 = Ok tt w.
Proof.
  intros Hf. eexists. split; [apply ctor_eq|]. cbn.
  set (p := fresh (dom (back_pointers w))).
  rewrite (dtor_eq _ f {| object_ := Some o; back_pointer_ := Some p |} p
             {| ref_ := 1; factory_ := None |});
    [|cbn; first [apply lookup_insert_eq | done]..].
  cbn. f_equal. destruct w as [h cs fs d]. cbn in *. f_equal.
  - unfold released. cbn. rewrite decide_True by done.
    rewrite delete_insert_eq. apply delete_id, fresh_back_pointer.
  - rewrite delete_insert_eq. by apply delete_id.
Qed.

Lemma ctor_then_dtor_restores_witness :
  let w := world_after [Construct 5 (Some 9%positive); Mint 5 3%nat] in
  ∃ w1, CompletionCallbackFactory_ctor 6 (Some 8%positive) w = Ok tt w1
        ∧ CompletionCallbackFactory_dtor 6 w1 = Ok tt w.
Proof.
  apply (ctor_then_dtor_restores
           (world_after [Construct 5 (Some 9%positive); Mint 5 3%nat])
           6%positive 8%positive).
  vm_compute. reflexivity.
Defined.

(** X4: a callback is used once.  After [Run] has returned in a well-formed
    store, the callback is no longer allocated, and to run it again or to
    convert it with [ToPP] is undefined. *)
Theorem Run_is_single_use w c result w' :
  wf w → Run c result w = Ok tt w' →
  callbacks w' !! c = None
  ∧ (∀ result', Run c result' w' = Undefined)
  ∧ (∀ sentinel, ToPP sentinel (Some c) w' = Undefined).
Proof.
  intros Hw Hr.
  assert (stepped w (Invoke c result) w') as Hst by (by apply step_stepped).
  inversion Hst; subst.
  assert (callbacks (after_run c cb bp result w) !! c = None) as Hnone
    by (cbn; apply lookup_delete_eq).
  split; [done|]. split.
  - intros result'. unfold Run, bind, load_callback. by rewrite Hnone.
  - intros sentinel. unfold ToPP, bind, load_callback. by rewrite Hnone.
Qed.

Lemma Run_is_single_use_witness :
  let w' := world_after [Construct 5 (Some 9%positive); Mint 5 3%nat; Invoke 1 42] in
  callbacks w' !! 1%positive = None
  ∧ (∀ result', Run 1 result' w' = Undefined)
  ∧ (∀ sentinel, ToPP sentinel (Some 1%positive) w' = Undefined).
Proof.
  apply (Run_is_single_use
           (world_after [Construct 5 (Some 9%positive); Mint 5 3%nat]) 1%positive 42).
  - apply (bool_decide_unpack _). vm_compute. reflexivity.
  - vm_compute. reflexivity.
Defined.

(** X5: a callback that is never run is never freed.  Along every program
    that does not run it, started in a well-formed store, the callback
    stays allocated with the same contents, and its token stays allocated
    with a positive count, also when its factory is destroyed or cancels. *)
Theorem callback_not_run_is_kept ops c cb : ∀ w w',
  wf w → callbacks w !! c = Some cb → never_invokes c ops = true →
  exec ops w = Ok tt w' →
  callbacks w' !! c = Some cb
  ∧ ∃ bp, back_pointers w' !! cb_back_pointer_ cb = Some bp ∧ 0 < ref_ bp.
Proof.
  induction ops as [|o ops IH]; intros w w' Hw Hc; cbn.
  - intros _ [= <-]. split; [done|].
    destruct (wf_callback w Hw c cb Hc) as [bp Hp]. exists bp. split; [done|].
    by destruct (wf_count w Hw _ bp Hp).
  - intros [Hni Hnis]%andb_true_iff. apply negb_true_iff in Hni.
    unfold bind. destruct (step o w) as [[] w1| |] eqn:Hs; [|done..].
    pose proof (step_stepped _ _ _ Hw Hs) as Hst.
    apply IH; [by eapply stepped_wf|by eapply stepped_keeps_callback|done].
Qed.

Lemma callback_not_run_is_kept_witness :
  let w := world_after [Construct 5 (Some 9%positive); Mint 5 3%nat] in
  let w' := world_after [Construct 5 (Some 9%positive); Mint 5 3%nat;
                         Mint 5 4%nat; Cancel 5; Invoke 2 0; Destroy 5] in
  let cb := {| thunk_ := CallbackImpl_Thunk; cb_back_pointer_ := 1; method_ := 3 |} in
  callbacks w' !! 1%positive = Some cb
  ∧ ∃ bp, back_pointers w' !! cb_back_pointer_ cb = Some bp ∧ 0 < ref_ bp.
Proof.
  apply (callback_not_run_is_kept
           [Mint 5 4%nat; Cancel 5; Invoke 2 0; Destroy 5] 1%positive
           {| thunk_ := CallbackImpl_Thunk; cb_back_pointer_ := 1; method_ := 3 |}
           (world_after [Construct 5 (Some 9%positive); Mint 5 3%nat])).
  - apply (bool_decide_unpack _). vm_compute. reflexivity.
  - vm_compute. reflexivity.
  - reflexivity.
  - vm_compute. reflexivity.
Defined.

(** In a well-formed store a live factory is the one holder among the
    factories of its token. *)
Lemma wf_factory_refs_one w f fac p :
  wf w → factories w !! f = Some fac → back_pointer_ fac = Some p →
  factory_refs (factories w) p = 1%nat.
Proof.
  intros Hw Hf Hfp. pose proof (wf_owner w Hw p).
  pose proof (factory_refs_pos _ _ _ p Hf Hfp). lia.
Qed.

(** X6: the destructor of a live factory of a well-formed store returns and
    keeps the store well formed.  The factory is gone, the callbacks and
    the calls delivered are untouched, and the token of the factory is
    freed when no callback refers to it; otherwise it stays, with a null
    [factory_] and as many references as callbacks refer to it.  No other
    token changes. *)
Theorem dtor_releases_token w f fac :
  wf w → factories w !! f = Some fac →
  ∃ p w',
    back_pointer_ fac = Some p
    ∧ CompletionCallbackFactory_dtor f w = Ok tt w'
    ∧ wf w'
    ∧ factories w' = delete f (factories w)
    ∧ callbacks w' = callbacks w
    ∧ delivered w' = delivered w
    ∧ back_pointers w' !! p
      = (if decide (callback_refs (callbacks w) p = 0%nat) then None
         else Some {| ref_ := Z.of_nat (callback_refs (callbacks w) p);
                      factory_ := None |})
    ∧ (∀ q, q ≠ p → back_pointers w' !! q = back_pointers w !! q).
Proof.
  intros Hw Hf. destruct (wf_factory w Hw f fac Hf) as (p & Hfp & [bp Hbp]).
  exists p. eexists. split; [done|].
  rewrite (dtor_eq _ _ _ _ _ Hf Hfp Hbp (wf_ref_min _ _ _ Hw Hbp)).
  split; [done|]. split; [by eapply wf_detach|]. cbn.
  repeat (split; [done|]). split.
  - destruct (wf_count w Hw p bp Hbp) as [Hcnt _]. unfold holders in Hcnt.
    rewrite (wf_factory_refs_one w f fac p Hw Hf Hfp) in Hcnt.
    rewrite released_lookup_eq. cbn.
    repeat case_decide; try lia; try done. do 2 f_equal. lia.
  - intros q Hq. by apply released_lookup_ne.
Qed.

Lemma dtor_releases_token_witness :
  let w := world_after [Construct 5 (Some 9%positive); Mint 5 3%nat; Mint 5 4%nat] in
  ∃ p w',
    Some 1%positive = Some p
    ∧ CompletionCallbackFactory_dtor 5 w = Ok tt w'
    ∧ wf w'
    ∧ factories w' = delete 5%positive (factories w)
    ∧ callbacks w' = callbacks w
    ∧ delivered w' = delivered w
    ∧ back_pointers w' !! p
      = (if decide (callback_refs (callbacks w) p = 0%nat) then None
         else Some {| ref_ := Z.of_nat (callback_refs (callbacks w) p);
                      factory_ := None |})
    ∧ (∀ q, q ≠ p → back_pointers w' !! q = back_pointers w !! q).
Proof.
  apply (dtor_releases_token
           (world_after [Construct 5 (Some 9%positive); Mint 5 3%nat; Mint 5 4%nat])
           5%positive
           {| object_ := Some 9%positive; back_pointer_ := Some 1%positive |}).
  - apply (bool_decide_unpack _). vm_compute. reflexivity.
  - vm_compute. reflexivity.
Defined.

(** X7: [CancelAll] on a live factory of a well-formed store returns and
    keeps the store well formed, with the factory alive.  It allocates one
    token and frees the old one when no callback refers to it: the number
    of tokens is unchanged then, and one more otherwise. *)
Theorem CancelAll_returns w f fac :
  wf w → factories w !! f = Some fac →
  ∃ p w',
    back_pointer_ fac = Some p
    ∧ CancelAll f w = Ok tt w'
    ∧ wf w'
    ∧ is_Some (factories w' !! f)
    ∧ size (back_pointers w')
      = (size (back_pointers w)
         + (if decide (callback_refs (callbacks w) p = 0%nat) then 0 else 1))%nat.
Proof.
  intros Hw Hf. destruct (wf_factory w Hw f fac Hf) as (p & Hfp & [bp Hbp]).
  exists p. eexists. split; [done|].
  assert (step (Cancel f) w
          = Ok tt (after_attach f (object_ fac) (after_detach f p bp w))) as Hs.
  { cbn. rewrite (CancelAll_eq _ _ _ _ _ Hf Hfp Hbp (wf_ref_min _ _ _ Hw Hbp)).
    unfold after_attach, after_detach. cbn. by rewrite insert_delete_eq. }
  split; [exact Hs|]. split; [by eapply step_wf|]. cbn.
  split; [rewrite lookup_insert_eq; eauto|].
  rewrite map_size_insert_None by apply fresh_back_pointer.
  destruct (wf_count w Hw p bp Hbp) as [Hcnt _]. unfold holders in Hcnt.
  rewrite (wf_factory_refs_one w f fac p Hw Hf Hfp) in Hcnt.
  unfold released. cbn.
  assert (size (back_pointers w) ≠ 0%nat) as Hne
    by (apply (map_size_ne_0_lookup_2 _ p); eauto).
  repeat case_decide; try lia.
  - rewrite map_size_delete, Hbp. lia.
  - rewrite map_size_insert_Some by eauto. lia.
Qed.

Lemma CancelAll_returns_witness :
  let w := world_after [Construct 5 (Some 9%positive); Mint 5 3%nat] in
  ∃ p w',
    Some 1%positive = Some p
    ∧ CancelAll 5 w = Ok tt w'
    ∧ wf w'
    ∧ is_Some (factories w' !! 5%positive)
    ∧ size (back_pointers w')
      = (size (back_pointers w)
         + (if decide (callback_refs (callbacks w) p = 0%nat) then 0 else 1))%nat.
Proof.
  apply (CancelAll_returns
           (world_after [Construct 5 (Some 9%positive); Mint 5 3%nat]) 5%positive
           {| object_ := Some 9%positive; back_pointer_ := Some 1%positive |}).
  - apply (bool_decide_unpack _). vm_compute. reflexivity.
  - vm_compute. reflexivity.
Defined.

Lemma stepped_owned w o w' : owned w → stepped w o w' → owned w'.
Proof.
  intros Ho Hs. destruct Hs; unfold owned; cbn; try done.
  - intros g fac'. rewrite lookup_insert. case_decide; [|apply Ho].
    intros [= <-]. cbn. eauto.
  - intros g fac' [_ Hg]%lookup_delete_Some. by eapply Ho.
  - intros g fac'. rewrite lookup_insert. case_decide.
    + intros [= <-]. cbn. by eapply Ho.
    + intros [_ Hg]%lookup_delete_Some. by eapply Ho.
Qed.

(** X8: in every store that a program reaches from the empty store, every
    live factory has a non-null [object_]: the constructor stops at
    [PP_DCHECK] otherwise, and nothing assigns [object_] later. *)
Theorem object_is_never_null ops w f fac :
  exec ops empty_world = Ok tt w → factories w !! f = Some fac →
  ∃ o, object_ fac = Some o ∧ GetObject f w = Ok (Some o) w.
Proof.
  intros He Hf.
  assert (∀ ops w0 w1, wf w0 → owned w0 → exec ops w0 = Ok tt w1 → owned w1)
    as Hexec.
  { clear. induction ops as [|o ops IH]; intros w0 w1 Hw Ho; cbn.
    - by intros [= <-].
    - unfold bind. destruct (step o w0) as [[] w2| |] eqn:Hs; [|done..].
      pose proof (step_stepped _ _ _ Hw Hs) as Hst.
      apply IH; [by eapply stepped_wf|by eapply stepped_owned]. }
  assert (owned empty_world) as H0 by (intros g fac'; cbn; by rewrite lookup_empty).
  destruct (Hexec _ _ _ wf_empty H0 He f fac Hf) as [o Ho].
  exists o. split; [done|]. unfold GetObject, bind, load_factory.
  by rewrite Hf, Ho.
Qed.

Lemma object_is_never_null_witness :
  let w := world_after [Construct 5 (Some 9%positive); Mint 5 3%nat; Cancel 5] in
  ∃ o, object_ {| object_ := Some 9%positive; back_pointer_ := Some 2%positive |}
       = Some o
       ∧ GetObject 5 w = Ok (Some o) w.
Proof.
  apply (object_is_never_null
           [Construct 5 (Some 9%positive); Mint 5 3%nat; Cancel 5]).
  - vm_compute. reflexivity.
  - vm_compute. reflexivity.
Defined.

Lemma stepped_keeps_object w o w' f fac :
  stepped w o w' → factories w !! f = Some fac → destroys f o = false →
  ∃ fac', factories w' !! f = Some fac' ∧ object_ fac' = object_ fac.
Proof.
  intros Hs Hf Hnd. destruct Hs; cbn in *; eauto.
  - exists fac. rewrite lookup_insert_ne; [done|congruence].
  - apply bool_decide_eq_false in Hnd. exists fac.
    by rewrite lookup_delete_ne.
  - destruct (decide (f0 = f)) as [->|Hne].
    + rewrite lookup_insert_eq. eexists. split; [done|]. cbn. congruence.
    + exists fac. by rewrite lookup_insert_ne, lookup_delete_ne.
Qed.

(** X9: the owner of a factory does not change while the factory lives.
    Along every program without the destructor of the factory, started in a
    well-formed store, the factory stays alive and [GetObject] returns the
    object it returned at the start, whatever is minted, run or cancelled
    and whatever other factories are constructed or destroyed. *)
Theorem GetObject_is_stable ops f : ∀ w w' fac,
  wf w → factories w !! f = Some fac → never_destroys f ops = true →
  exec ops w = Ok tt w' →
  GetObject f w = Ok (object_ fac) w ∧ GetObject f w' = Ok (object_ fac) w'.
Proof.
  assert (∀ w fac, factories w !! f = Some fac →
            GetObject f w = Ok (object_ fac) w) as Hget.
  { intros w fac Hf. unfold GetObject, bind, load_factory. by rewrite Hf. }
  induction ops as [|o ops IH]; intros w w' fac Hw Hf; cbn.
  - intros _ [= <-]. split; by apply Hget.
  - intros [Hnd Hnds]%andb_true_iff. apply negb_true_iff in Hnd.
    unfold bind. destruct (step o w) as [[] w1| |] eqn:Hs; [|done..].
    pose proof (step_stepped _ _ _ Hw Hs) as Hst.
    destruct (stepped_keeps_object _ _ _ _ _ Hst Hf Hnd) as (fac' & Hf' & Hobj).
    intros He. split; [by apply Hget|].
    destruct (IH w1 w' fac' (stepped_wf _ _ _ Hw Hst) Hf' Hnds He) as [_ Hend].
    by rewrite <- Hobj.
Qed.

Lemma GetObject_is_stable_witness :
  let w := world_after [Construct 5 (Some 9%positive)] in
  let w' := world_after [Construct 5 (Some 9%positive); Mint 5 3%nat; Cancel 5;
                         Construct 6 (Some 8%positive); Invoke 1 0; Destroy 6] in
  GetObject 5 w = Ok (Some 9%positive) w ∧ GetObject 5 w' = Ok (Some 9%positive) w'.
Proof.
  apply (GetObject_is_stable
           [Mint 5 3%nat; Cancel 5; Construct 6 (Some 8%positive); Invoke 1 0;
            Destroy 6] 5%positive
           (world_after [Construct 5 (Some 9%positive)]) _
           {| object_ := Some 9%positive; back_pointer_ := Some 1%positive |}).
  - apply (bool_decide_unpack _). vm_compute. reflexivity.
  - vm_compute. reflexivity.
  - reflexivity.
  - vm_compute. reflexivity.
Defined.

(** X10: the destructor and [CancelAll] of one factory reach only the token
    of that factory.  In a well-formed store, a callback whose token is not
    the current token of the factory keeps its contents, its token is
    untouched, and the token resolves to the same object as before. *)
Theorem other_tokens_are_untouched w f fac p c cb w' :
  wf w → factories w !! f = Some fac → back_pointer_ fac = Some p →
  callbacks w !! c = Some cb → cb_back_pointer_ cb ≠ p →
  (CompletionCallbackFactory_dtor f w = Ok tt w' ∨ CancelAll f w = Ok tt w') →
  callbacks w' !! c = Some cb
  ∧ ∃ bp, back_pointers w !! cb_back_pointer_ cb = Some bp
          ∧ back_pointers w' !! cb_back_pointer_ cb = Some bp
          ∧ resolve w' bp = resolve w bp.
Proof.
  intros Hw Hf Hfp Hc Hne Hgone.
  destruct (wf_callback w Hw c cb Hc) as [bp Hp].
  assert (∃ o, (o = Destroy f ∨ o = Cancel f) ∧ step o w = Ok tt w')
    as (o & Ho & Hs).
  { destruct Hgone; [exists (Destroy f)|exists (Cancel f)]; eauto. }
  pose proof (step_stepped _ _ _ Hw Hs) as Hst.
  assert (invokes c o = false) as Hni by (by destruct Ho as [-> | ->]).
  split; [by eapply stepped_keeps_callback|].
  exists bp. split; [done|].
  assert (∀ g, factory_ bp = Some g → g ≠ f) as Hg.
  { intros g Hb ->.
    destruct (wf_bound w Hw _ bp f Hp Hb) as (fac' & Hf' & Hfp'). congruence. }
  destruct Ho as [-> | ->]; inversion Hst; subst; cbn;
    match goal with
    | H1 : factories w !! f = Some ?fac1, H2 : back_pointer_ ?fac1 = Some ?p1 |- _ =>
        assert (fac1 = fac) as -> by congruence;
        assert (p1 = p) as -> by congruence
    end.
  - rewrite released_lookup_ne by done. split; [done|].
    unfold resolve. cbn. destruct (factory_ bp) as [g|] eqn:Hb; [|done].
    by rewrite lookup_delete_ne by (apply not_eq_sym, Hg; done).
  - set (h := released p {| ref_ := ref_ bp0; factory_ := None |} (back_pointers w)).
    assert (h !! cb_back_pointer_ cb = Some bp) as Hh
      by (unfold h; by rewrite released_lookup_ne).
    split.
    + rewrite lookup_insert_ne; [done|].
      intros Heq. rewrite <- Heq, fresh_back_pointer in Hh. done.
    + unfold resolve. cbn. destruct (factory_ bp) as [g|] eqn:Hb; [|done].
      rewrite lookup_insert_ne by (apply not_eq_sym, Hg; done).
      by rewrite lookup_delete_ne by (apply not_eq_sym, Hg; done).
Qed.

Lemma other_tokens_are_untouched_witness :
  let w := world_after [Construct 5 (Some 9%positive); Mint 5 3%nat;
                        Construct 6 (Some 8%positive); Mint 6 4%nat] in
  let w' := world_after [Construct 5 (Some 9%positive); Mint 5 3%nat;
                         Construct 6 (Some 8%positive); Mint 6 4%nat; Cancel 5] in
  let cb := {| thunk_ := CallbackImpl_Thunk; cb_back_pointer_ := 2; method_ := 4 |} in
  callbacks w' !! 2%positive = Some cb
  ∧ ∃ bp, back_pointers w !! cb_back_pointer_ cb = Some bp
          ∧ back_pointers w' !! cb_back_pointer_ cb = Some bp
          ∧ resolve w' bp = resolve w bp.
Proof.
  apply (other_tokens_are_untouched
           (world_after [Construct 5 (Some 9%positive); Mint 5 3%nat;
                         Construct 6 (Some 8%positive); Mint 6 4%nat])
           5%positive
           {| object_ := Some 9%positive; back_pointer_ := Some 1%positive |}
           1%positive 2%positive).
  - apply (bool_decide_unpack _). vm_compute. reflexivity.
  - vm_compute. reflexivity.
  - reflexivity.
  - vm_compute. reflexivity.
  - cbn. done.
  - right. vm_compute. reflexivity.
Defined.

(** [Thunk] in a store whose token names the live factory at [5]: the
    method bound to the callback is called once, on the object of the
    factory, with the result given to [Run]. *)
Lemma Run_bound_delivers_witness :
  ∃ w', Run 1 42 bound_world = Ok tt w'
        ∧ delivered w' = delivered bound_world ++ [mkCall 9 3 42]
        ∧ callbacks w' !! 1%positive = None.
Proof.
  apply (Run_bound_delivers bound_world 1%positive
           {| thunk_ := CallbackImpl_Thunk; cb_back_pointer_ := 1; method_ := 3 |}
           {| ref_ := 2; factory_ := Some 5%positive |} 5%positive
           {| object_ := Some 9%positive; back_pointer_ := Some 1%positive |}
           9%positive 42).
  - apply (bool_decide_unpack _). vm_compute. reflexivity.
  - vm_compute. reflexivity.
  - vm_compute. reflexivity.
  - reflexivity.
  - vm_compute. reflexivity.
  - reflexivity.
Defined.




Lemma released_bounded p bp (h : gmap positive BackPointer) :
  (∀ q bq, h !! q = Some bq → ref_ bq ≤ INT32_MAX) → ref_ bp ≤ INT32_MAX →
  ∀ q bq, released p bp h !! q = Some bq → ref_ bq ≤ INT32_MAX.
Proof.
  intros Hh Hbp q bq. destruct (decide (q = p)) as [->|Hne].
  - rewrite released_lookup_eq. case_decide; [done|]. intros [= <-]. cbn. lia.
  - rewrite released_lookup_ne by done. apply Hh.
Qed.

Lemma stepped_bounded w o w' : bounded w → stepped w o w' → bounded w'.
Proof.
  intros Hb Hs. destruct Hs; unfold bounded; cbn.
  - intros q bq. rewrite lookup_insert. case_decide; [|apply Hb].
    by intros [= <-].
  - apply released_bounded; [done|]. cbn. by eapply Hb.
  - intros q bq. rewrite lookup_insert. case_decide; [by intros [= <-]|].
    apply released_bounded; [done|]. cbn. by eapply Hb.
  - intros q bq. rewrite lookup_insert. case_decide; [|apply Hb].
    intros [= <-]. cbn.
    match goal with H : back_pointers w !! _ = Some ?b |- _ =>
      pose proof (Hb _ b H) end. lia.
  - apply released_bounded; [done|]. by eapply Hb.
Qed.

(** X13: the counter never leaves the range in which it counts.  In every
    store reached from the empty store, [ref_] of an allocated token is at
    least [1] and at most [INT32_MAX]: [Release] frees the token at zero,
    and a program that would increment [INT32_MAX] does not return. *)
Theorem ref_stays_in_range ops w p bp :
  exec ops empty_world = Ok tt w → back_pointers w !! p = Some bp →
  1 ≤ ref_ bp ≤ INT32_MAX.
Proof.
  assert (∀ ops w0 w1, wf w0 → bounded w0 → exec ops w0 = Ok tt w1 → bounded w1)
    as Hexec.
  { clear. induction ops as [|o ops IH]; intros w0 w1 Hw Hb; cbn.
    - by intros [= <-].
    - unfold bind. destruct (step o w0) as [[] w2| |] eqn:Hs; [|done..].
      pose proof (step_stepped _ _ _ Hw Hs) as Hst.
      apply IH; [by eapply stepped_wf|by eapply stepped_bounded]. }
  intros He Hp. destruct (exec_reachable _ _ He) as [Hw _].
  destruct (wf_count w Hw p bp Hp) as [_ Hpos].
  assert (bounded empty_world) as H0 by (intros q bq; cbn; by rewrite lookup_empty).
  pose proof (Hexec _ _ _ wf_empty H0 He p bp Hp). lia.
Qed.

Lemma ref_stays_in_range_witness :
  1 ≤ ref_ {| ref_ := 3; factory_ := None |} ≤ INT32_MAX.
Proof.
  apply (ref_stays_in_range
           [Construct 5 (Some 9%positive); Mint 5 3%nat; Mint 5 4%nat]
           (world_after [Construct 5 (Some 9%positive); Mint 5 3%nat; Mint 5 4%nat])
           1%positive).
  - vm_compute. reflexivity.
  - vm_compute. reflexivity.
Defined.

(** X14: nothing leaks once everything is given back.  In a store reached
    from the empty store in which no factory is alive and no callback is
    left to run, no token is allocated. *)
Theorem no_token_is_left ops w :
  exec ops empty_world = Ok tt w →
  factories w = ∅ → callbacks w = ∅ → back_pointers w = ∅.
Proof.
  intros He Hf Hc. destruct (exec_reachable _ _ He) as [Hw _].
  apply map_empty. intros p.
  destruct (back_pointers w !! p) as [bp|] eqn:Hp; [|done].
  destruct (wf_count w Hw p bp Hp) as [Hcnt Hpos]. unfold holders in Hcnt.
  rewrite Hf, Hc in Hcnt. unfold factory_refs, callback_refs in Hcnt.
  rewrite !map_filter_empty, !map_size_empty in Hcnt. lia.
Qed.

Lemma no_token_is_left_witness :
  back_pointers
    (world_after [Construct 5 (Some 9%positive); Mint 5 3%nat; Mint 5 4%nat;
                  Cancel 5; Mint 5 6%nat; Invoke 2 0; Destroy 5; Invoke 1 1;
                  Invoke 3 2])
  = ∅.
Proof.
  apply (no_token_is_left
           [Construct 5 (Some 9%positive); Mint 5 3%nat; Mint 5 4%nat;
            Cancel 5; Mint 5 6%nat; Invoke 2 0; Destroy 5; Invoke 1 1; Invoke 3 2]).
  - vm_compute. reflexivity.
  - vm_compute. reflexivity.
  - vm_compute. reflexivity.
Defined.
